(** * A CSV filter / order-by / aggregate pipeline (src/main.py)

    Shallow embedding of the command pipeline of [src/main.py]: the row
    filter, the four aggregation strategies, the aggregator, the three
    commands and the orchestrator [CsvApp.run].

    Python values are modelled as follows.
    - a [float] is an IEEE-754 binary64 number: Rocq's primitive [float];
    - a [str] is a [string]; Python orders [str] by code point, which on
      UTF-8 encoded text is the byte-wise lexicographic order [String.ltb];
    - a [dict] row is a [gmap string cell]; [csv.DictReader] fills a cell with
      a [str], or with [None] when the line is shorter than the header;
    - a raised exception is the [Raise] outcome of [result];
    - output (the printer collaborator, and the [print] of
      [AggregateCommand]) is a trace of [event]s. *)

From Stdlib Require Import ZArith List String Ascii Floats Uint63 Bool Lia.
From Stdlib Require Import Sorting.Sorted Sorting.Permutation.
From stdpp Require Import base option list gmap strings.

Local Open Scope string_scope.

(** ** Exceptions and the error monad *)

Inductive type_error :=
| FloatArgument        (* float(None) *)
| Unorderable.         (* '<' not supported between instances of ... *)

Inductive value_error :=
| CouldNotConvert (s : string)       (* float(s) on a malformed s *)
| UnknownAggregation (name : string) (* AggregationStrategyFactory.get *)
| UnknownOperator (op : string)      (* RowFilter.match *)
| OrderByFormat                      (* CsvApp.run, no '=' in --order-by *)
| UnpackMismatch (n : nat).          (* column, direction = <n parts> *)

Inductive exn :=
| KeyError (k : string)
| TypeError (t : type_error)
| ValueError (v : value_error).

Inductive result (A : Type) :=
| Ok (a : A)
| Raise (e : exn).
Arguments Ok {A} a.
Arguments Raise {A} e.

#[global] Instance result_ret : MRet result := @Ok.
#[global] Instance result_bind : MBind result :=
  fun A B f m => match m with Ok a => f a | Raise e => Raise e end.

(** [try: m except ValueError: h] *)
Definition except_ValueError {A} (m : result A) (h : result A) : result A :=
  match m with
  | Raise (ValueError _) => h
  | _ => m
  end.

(** ** Values *)

(** What a row holds in a column. *)
Inductive cell :=
| CNone
| CStr (s : string).

(** The values the pipeline computes with: a cell, or a parsed float. *)
Inductive pyval :=
| VNone
| VStr (s : string)
| VFloat (f : float).

Definition of_cell (c : cell) : pyval :=
  match c with
  | CNone => VNone
  | CStr s => VStr s
  end.

(** [row[column]] *)
Definition getitem (row : gmap string cell) (column : string) : result cell :=
  match row !! column with
  | Some c => Ok c
  | None => Raise (KeyError column)
  end.

(** The builtin [float] on a [str]: [Some] the nearest binary64 number, or
    [None] where Python raises [ValueError]. The pipeline is embedded over
    any such function; [decimal_float] below is a concrete one. *)
Class FloatParser := float_of_str : string -> option float.

Definition py_float_str `{FloatParser} (s : string) : result float :=
  match float_of_str s with
  | Some f => Ok f
  | None => Raise (ValueError (CouldNotConvert s))
  end.

(** [float(c)] for a cell. *)
Definition py_float `{FloatParser} (c : cell) : result float :=
  match c with
  | CNone => Raise (TypeError FloatArgument)
  | CStr s => py_float_str s
  end.

(** [a < b], [a > b] and [a == b]. Ordering is defined between two floats
    and between two strings; anything else raises [TypeError]. *)
Definition py_lt (a b : pyval) : result bool :=
  match a, b with
  | VFloat x, VFloat y => Ok (PrimFloat.ltb x y)
  | VStr x, VStr y => Ok (String.ltb x y)
  | _, _ => Raise (TypeError Unorderable)
  end.

Definition py_gt (a b : pyval) : result bool :=
  match a, b with
  | VFloat x, VFloat y => Ok (PrimFloat.ltb y x)
  | VStr x, VStr y => Ok (String.ltb y x)
  | _, _ => Raise (TypeError Unorderable)
  end.

Definition py_eq (a b : pyval) : bool :=
  match a, b with
  | VNone, VNone => true
  | VStr x, VStr y => String.eqb x y
  | VFloat x, VFloat y => PrimFloat.eqb x y
  | _, _ => false
  end.

(** [x in (e1, e2, ...)] *)
Definition py_in (x : pyval) (t : list pyval) : bool :=
  existsb (py_eq x) t.

(** ** The builtin [sorted]

    [sorted(l, key=key, reverse=reverse)] computes every key first, then
    sorts with [<] on the keys only, stably; [reverse=True] reverses the
    list, sorts it, and reverses the result. CPython's algorithm is timsort;
    the embedding is the stable insertion sort, which compares with [<] in
    the same way, raises [TypeError] on the same inputs (see
    [py_sort_Ok_iff]), and returns the same list whenever [<] orders the
    keys, that is whenever no key is the float NaN. On keys with a NaN both
    return a permutation in which no key is [<] the key before it, which
    both leave as it is when sorting again; which permutation depends on
    the algorithm. *)
Section Sorted.
Context {A : Type}.

Fixpoint py_insert (x : pyval * A) (l : list (pyval * A))
  : result (list (pyval * A)) :=
  match l with
  | [] => Ok [x]
  | y :: l' =>
      b ← py_lt (fst y) (fst x);
      if b : bool then (l'' ← py_insert x l'; Ok (y :: l''))
      else Ok (x :: y :: l')
  end.

Fixpoint py_sort (l : list (pyval * A)) : result (list (pyval * A)) :=
  match l with
  | [] => Ok []
  | x :: l' => s ← py_sort l'; py_insert x s
  end.

Fixpoint py_keys (key : A -> result pyval) (l : list A)
  : result (list (pyval * A)) :=
  match l with
  | [] => Ok []
  | a :: l' => k ← key a; ks ← py_keys key l'; Ok ((k, a) :: ks)
  end.

Definition py_sorted (key : A -> result pyval) (reverse : bool) (l : list A)
  : result (list A) :=
  keyed ← py_keys key l;
  s ← py_sort (if reverse then rev keyed else keyed);
  Ok (map snd (if reverse then rev s else s)).
End Sorted.

(** ** Aggregation strategies (main.py, lines 18-35) *)

Inductive IAggregationStrategy :=
| AvgAggregation
| MinAggregation
| MaxAggregation
| MedianAggregation.

(** [sum(values)]: the floats added from the left, starting from 0.
    (CPython 3.12 and later compensate the rounding errors of the partial
    sums; both agree whenever the partial sums are exact.) *)
Definition py_sum (values : list float) : float :=
  fold_left PrimFloat.add values PrimFloat.zero.

(** [len(values)] as the float a division converts it to. *)
Definition py_len (values : list float) : float :=
  PrimFloat.of_uint63 (Uint63.of_Z (Z.of_nat (length values))).

(** [min(values)] and [max(values)] keep the first item and replace it by
    each later one that is [<] (respectively [>]) the current one. *)
Definition py_min (first : float) (rest : list float) : float :=
  fold_left (fun cur item => if PrimFloat.ltb item cur then item else cur)
    rest first.

Definition py_max (first : float) (rest : list float) : float :=
  fold_left (fun cur item => if PrimFloat.ltb cur item then item else cur)
    rest first.

(** [statistics.median(values)] for a non-empty list. *)
Definition py_median (values : list float) : result float :=
  data ← py_sorted (fun f => Ok (VFloat f)) false values;
  let n := length data in
  if Nat.eqb (n mod 2) 1 then Ok (nth (n / 2) data PrimFloat.nan)
  else
    let i := (n / 2)%nat in
    Ok (PrimFloat.div
          (PrimFloat.add (nth (i - 1) data PrimFloat.nan)
                         (nth i data PrimFloat.nan))
          (PrimFloat.of_uint63 2%uint63)).

Definition strategy_aggregate (self : IAggregationStrategy)
    (values : list float) : result float :=
  match self, values with
  | _, [] => Ok PrimFloat.nan
  | AvgAggregation, _ => Ok (PrimFloat.div (py_sum values) (py_len values))
  | MinAggregation, v :: rest => Ok (py_min v rest)
  | MaxAggregation, v :: rest => Ok (py_max v rest)
  | MedianAggregation, _ => py_median values
  end.

Module AggregationStrategyFactory.
Definition _strategies : gmap string IAggregationStrategy :=
  <["avg" := AvgAggregation]>
    (<["min" := MinAggregation]>
       (<["max" := MaxAggregation]>
          (<["median" := MedianAggregation]> ∅))).

Definition get (name : string) : result IAggregationStrategy :=
  match _strategies !! name with
  | None => Raise (ValueError (UnknownAggregation name))
  | Some s => Ok s
  end.
End AggregationStrategyFactory.

(** ** The row filter (main.py, lines 94-122) *)

Module RowFilter.
Record t := init { column : string; op : string; value : string }.

Definition match_ `{FloatParser} (self : t) (row : gmap string cell)
  : result bool :=
  cell ← getitem row (column self);
  '(cell_val, value_val) ←
    except_ValueError
      (cell_val ← py_float cell;
       value_val ← py_float_str (value self);
       Ok (VFloat cell_val, VFloat value_val))
      (Ok (of_cell cell, VStr (value self)));
  if String.eqb (op self) ">" then py_gt cell_val value_val
  else if String.eqb (op self) "<" then py_lt cell_val value_val
  else if String.eqb (op self) "=" then Ok (py_eq cell_val value_val)
  else Raise (ValueError (UnknownOperator (op self))).
End RowFilter.

Module FilterFactory.
Definition create (column op value : string) : RowFilter.t :=
  RowFilter.init column op value.
End FilterFactory.

(** ** The aggregator (main.py, lines 63-91) *)

Module DictAggregator.
Record t := init { column : string; strategy : IAggregationStrategy }.

(** The list comprehension of [aggregate]: for each row in turn, the
    condition, then [float(row[column])]. *)
Fixpoint values `{FloatParser} (column : string)
    (rows : list (gmap string cell)) : result (list float) :=
  match rows with
  | [] => Ok []
  | row :: rows' =>
      c ← getitem row column;
      if negb (py_in (of_cell c) [VNone; VStr ""]) then
        c' ← getitem row column;
        v ← py_float c';
        vs ← values column rows';
        Ok (v :: vs)
      else values column rows'
  end.

Definition aggregate `{FloatParser} (self : t)
    (rows : list (gmap string cell)) : result (option float) :=
  vs ← values (column self) rows;
  match vs with
  | [] => Ok None
  | _ => r ← strategy_aggregate (strategy self) vs; Ok (Some r)
  end.
End DictAggregator.

Module AggregatorFactory.
Definition create (column func : string) : result DictAggregator.t :=
  strategy ← AggregationStrategyFactory.get func;
  Ok (DictAggregator.init column strategy).
End AggregatorFactory.

(** ** Commands (main.py, lines 145-178) *)

Inductive event :=
| PrinterPrint (rows : list (gmap string cell))
    (* self.printer.print(rows) *)
| PrintAggregate (func : string) (value : option float).
    (* print(tabulate([[result]], headers=[func], tablefmt="grid")) *)

(** A computation that writes output and may raise. *)
Record io (A : Type) := IO { trace : list event; outcome : result A }.
Arguments IO {A} trace outcome.
Arguments trace {A} i.
Arguments outcome {A} i.

#[global] Instance io_ret : MRet io := fun A a => IO [] (Ok a).
#[global] Instance io_bind : MBind io :=
  fun A B f m =>
    match outcome m with
    | Ok a => IO (trace m ++ trace (f a)) (outcome (f a))
    | Raise e => IO (trace m) (Raise e)
    end.

Definition lift {A} (r : result A) : io A := IO [] r.
Definition emit (e : event) : io unit := IO [e] (Ok tt).

Inductive ICommand :=
| FilterCommand (filter : RowFilter.t)
| OrderByCommand (column : string) (reverse : bool)
| AggregateCommand (aggregator : DictAggregator.t) (column func : string).

Module FilterCommand_.
Definition init (column op value : string) : ICommand :=
  FilterCommand (FilterFactory.create column op value).

(** [[row for row in rows if self.filter.match(row)]] *)
Fixpoint execute `{FloatParser} (filter : RowFilter.t)
    (rows : list (gmap string cell)) : result (list (gmap string cell)) :=
  match rows with
  | [] => Ok []
  | row :: rows' =>
      b ← RowFilter.match_ filter row;
      out ← execute filter rows';
      Ok (if b : bool then row :: out else out)
  end.
End FilterCommand_.

Module OrderByCommand_.
Definition key_func `{FloatParser} (column : string)
    (r : gmap string cell) : result pyval :=
  val ← getitem r column;
  match py_float val with
  | Ok f => Ok (VFloat f)
  | Raise (ValueError _) | Raise (TypeError _) => Ok (of_cell val)
  | Raise e => Raise e
  end.

Definition execute `{FloatParser} (column : string) (reverse : bool)
    (rows : list (gmap string cell)) : result (list (gmap string cell)) :=
  py_sorted (key_func column) reverse rows.
End OrderByCommand_.

Module AggregateCommand_.
Definition execute `{FloatParser} (aggregator : DictAggregator.t)
    (func : string) (rows : list (gmap string cell))
  : io (list (gmap string cell)) :=
  r ← lift (DictAggregator.aggregate aggregator rows);
  _ ← emit (PrintAggregate func r);
  mret rows.
End AggregateCommand_.

Definition execute `{FloatParser} (cmd : ICommand)
    (rows : list (gmap string cell)) : io (list (gmap string cell)) :=
  match cmd with
  | FilterCommand filter => lift (FilterCommand_.execute filter rows)
  | OrderByCommand column reverse =>
      lift (OrderByCommand_.execute column reverse rows)
  | AggregateCommand aggregator _ func =>
      AggregateCommand_.execute aggregator func rows
  end.

(** ** The orchestrator (main.py, lines 230-271) *)

(** [s.split("=")] *)
Fixpoint split_eq (s : string) : list string :=
  match s with
  | EmptyString => [""]
  | String c s' =>
      if Ascii.eqb c "="%char then "" :: split_eq s'
      else match split_eq s' with
           | p :: ps => String c p :: ps
           | [] => [String c ""]
           end
  end.

(** ["=" in s] *)
Fixpoint contains_eq (s : string) : bool :=
  match s with
  | EmptyString => false
  | String c s' => Ascii.eqb c "="%char || contains_eq s'
  end.

(** [s.lower()] on the ASCII letters. (Python also lowers letters outside
    ASCII, none of them to a letter of "desc", the only word [run]
    compares the result with.) *)
Definition lower_ascii (c : ascii) : ascii :=
  let n := nat_of_ascii c in
  if Nat.leb 65 n && Nat.leb n 90 then ascii_of_nat (n + 32) else c.

Fixpoint lower (s : string) : string :=
  match s with
  | EmptyString => EmptyString
  | String c s' => String (lower_ascii c) (lower s')
  end.

(** The parsed arguments; an absent option is [None]. *)
Record Args := {
  file : string;
  where_ : option (string * string * string);
  order_by : option string;
  aggregate : option (string * string)
}.

Module CsvApp.
(** Lines 249-265: the list of commands. *)
Definition commands (args : Args) : result (list ICommand) :=
  let commands := [] in
  let commands :=
    match where_ args with
    | Some (column, op, value) =>
        (commands ++ [FilterCommand_.init column op value])%list
    | None => commands
    end in
  commands ←
    match order_by args with
    | None | Some "" => Ok commands
    | Some order_by =>
        if negb (contains_eq order_by) then Raise (ValueError OrderByFormat)
        else match split_eq order_by with
             | [column; direction] =>
                 let reverse := String.eqb (lower direction) "desc" in
                 Ok (commands ++ [OrderByCommand column reverse])%list
             | parts => Raise (ValueError (UnpackMismatch (length parts)))
             end
    end;
  match aggregate args with
  | Some (column, func) =>
      aggregator ← AggregatorFactory.create column func;
      Ok (commands ++ [AggregateCommand aggregator column func])%list
  | None => Ok commands
  end.

(** Lines 267-268: [for cmd in commands: rows = cmd.execute(rows)]. *)
Fixpoint execute_all `{FloatParser} (commands : list ICommand)
    (rows : list (gmap string cell)) : io (list (gmap string cell)) :=
  match commands with
  | [] => mret rows
  | cmd :: commands' => rows' ← execute cmd rows; execute_all commands' rows'
  end.

(** [run], given the rows that [self.reader.read(args.file)] returned. *)
Definition run `{FloatParser} (args : Args)
    (rows : list (gmap string cell)) : io unit :=
  commands ← lift (commands args);
  rows ← execute_all commands rows;
  match aggregate args with
  | None => emit (PrinterPrint rows)
  | Some _ => mret tt
  end.
End CsvApp.

(** ** A concrete [float(str)]

    The grammar of Python's [float] on ASCII text: optional surrounding
    whitespace, an optional sign, then [inf], [infinity] or [nan] in any
    case, or a decimal number with an optional fraction and exponent, where
    single underscores may separate digits. The value is the binary64 number
    nearest to the decimal one (ties to even). *)
Module DecimalFloat.
Definition is_space (c : ascii) : bool :=
  let n := nat_of_ascii c in
  (Nat.leb 9 n && Nat.leb n 13) || (Nat.leb 28 n && Nat.leb n 32).

Definition digit_of (c : ascii) : option Z :=
  let n := nat_of_ascii c in
  if Nat.leb 48 n && Nat.leb n 57 then Some (Z.of_nat (n - 48)) else None.

Fixpoint strip_left (l : list ascii) : list ascii :=
  match l with
  | c :: l' => if is_space c then strip_left l' else l
  | [] => []
  end.

Definition strip (l : list ascii) : list ascii :=
  rev (strip_left (rev (strip_left l))).

(** The rest of a digit part whose first digit was read: the digits
    accumulated on [acc], their number added to [n], and what follows. *)
Fixpoint digits_rest (acc : Z) (n : nat) (l : list ascii)
  : Z * nat * list ascii :=
  match l with
  | c :: l' =>
      match digit_of c with
      | Some d => digits_rest (10 * acc + d) (S n) l'
      | None =>
          if Ascii.eqb c "_"%char then
            match l' with
            | c' :: l'' =>
                match digit_of c' with
                | Some d => digits_rest (10 * acc + d) (S n) l''
                | None => (acc, n, l)
                end
            | [] => (acc, n, l)
            end
          else (acc, n, l)
      end
  | [] => (acc, n, l)
  end.

Definition digitpart (acc : Z) (l : list ascii)
  : option (Z * nat * list ascii) :=
  match l with
  | c :: l' =>
      match digit_of c with
      | Some d => Some (digits_rest (10 * acc + d) 1 l')
      | None => None
      end
  | [] => None
  end.

(** [number]: the digits as one integer, the number of digits read, the
    number of them after the point, and what follows. *)
Definition number (l : list ascii) : option (Z * nat * nat * list ascii) :=
  match digitpart 0 l with
  | Some (m, n, rest) =>
      match rest with
      | "."%char :: rest' =>
          match digitpart m rest' with
          | Some (m', k, rest'') => Some (m', (n + k)%nat, k, rest'')
          | None => Some (m, n, 0%nat, rest')
          end
      | _ => Some (m, n, 0%nat, rest)
      end
  | None =>
      match l with
      | "."%char :: rest' =>
          match digitpart 0 rest' with
          | Some (m, k, rest'') => Some (m, k, k, rest'')
          | None => None
          end
      | _ => None
      end
  end.

Definition sign (l : list ascii) : bool * list ascii :=
  match l with
  | "-"%char :: l' => (true, l')
  | "+"%char :: l' => (false, l')
  | _ => (false, l)
  end.

(** [exponent], or 0 when nothing follows the number. *)
Definition exponent (l : list ascii) : option Z :=
  match l with
  | [] => Some 0%Z
  | c :: l' =>
      if Ascii.eqb c "e"%char || Ascii.eqb c "E"%char then
        let '(neg, l'') := sign l' in
        match digitpart 0 l'' with
        | Some (e, _, []) => Some (if neg then (- e)%Z else e)
        | _ => None
        end
      else None
  end.

(** The binary64 number nearest to [n / d], for [0 < n] and [0 < d]: the
    quotient is computed to 64 bits or more, the last one made odd when
    the division is inexact, and rounded once. *)
Definition round_ratio (n d : Z) : float :=
  let s := Z.max 0 (64 + Z.log2 d - Z.log2 n) in
  let q := (n * 2 ^ s / d)%Z in
  let sticky := if ((n * 2 ^ s) mod d =? 0)%Z then 0%Z else 1%Z in
  SF2Prim (binary_normalize prec emax (2 * q + sticky) (- (s + 1)) false).

(** The float nearest to [m * 10 ^ e], for [m] of [n] decimal digits. *)
Definition scale (m : Z) (n : nat) (e : Z) : float :=
  if (m =? 0)%Z then PrimFloat.zero
  else if (400 <? e)%Z then PrimFloat.infinity
  else if (e + Z.of_nat n <? -400)%Z then PrimFloat.zero
  else if (0 <=? e)%Z then round_ratio (m * 10 ^ e) 1
  else round_ratio m (10 ^ (- e)).

Definition magnitude (l : list ascii) : option float :=
  let word := lower (string_of_list_ascii l) in
  if String.eqb word "inf" || String.eqb word "infinity"
  then Some PrimFloat.infinity
  else if String.eqb word "nan" then Some PrimFloat.nan
  else
    match number l with
    | Some (m, n, k, rest) =>
        match exponent rest with
        | Some e => Some (scale m n (e - Z.of_nat k))
        | None => None
        end
    | None => None
    end.

Definition parse (s : string) : option float :=
  let '(neg, l) := sign (strip (list_ascii_of_string s)) in
  match magnitude l with
  | Some f => Some (if neg then PrimFloat.opp f else f)
  | None => None
  end.
End DecimalFloat.

Definition decimal_float : FloatParser := DecimalFloat.parse.

(** ** The argument parser (main.py, lines 206-226)

    [ArgsParser.parse], from the namespace [argparse] returned: the value
    of [--aggregate] and of [--where] are lists of tokens, absent options
    are [None]. A format error is the [ValueError] [parse] raises.

    The pattern of [re.match(r"(.+?)\s*([<>=])\s*(.+)", where_arg)] is
    followed as the regex engine tries it: the first group grows one
    character at a time, and for each length the rest of the pattern is
    tried, greedy parts first. [.] is any character but a newline, [\s] a
    whitespace character (on ASCII text, as for [float]). *)
Module ArgsParser.
Inductive format_error :=
| AggregateFormat   (* "Формат --aggregate: rating=avg" *)
| WhereFormat.      (* "Формат --where: column=value, ..." *)

Definition is_op (c : ascii) : bool :=
  Ascii.eqb c "<"%char || Ascii.eqb c ">"%char || Ascii.eqb c "="%char.

Definition is_newline (c : ascii) : bool := Ascii.eqb c "010"%char.

(** [s.strip()] *)
Definition strip (s : string) : string :=
  string_of_list_ascii (DecimalFloat.strip (list_ascii_of_string s)).

(** [\s*], greedy: what follows the longest run of whitespace. *)
Fixpoint skip_space (l : list ascii) : list ascii :=
  match l with
  | c :: l' => if DecimalFloat.is_space c then skip_space l' else l
  | [] => []
  end.

(** The longest run of [.] at the head of [l]. *)
Fixpoint dots (l : list ascii) : list ascii :=
  match l with
  | c :: l' => if is_newline c then [] else c :: dots l'
  | [] => []
  end.

(** The last character of [l] that is not a newline. *)
Fixpoint last_dot (l : list ascii) : option ascii :=
  match l with
  | [] => None
  | c :: l' =>
      match last_dot l' with
      | Some d => Some d
      | None => if is_newline c then None else Some c
      end
  end.

(** [\s*(.+)] at [l]: the third group. After the longest run of
    whitespace, [.+] takes what follows up to a newline; when nothing
    follows, [\s*] gives characters back until [.+] finds one that is not
    a newline, which is then all it matches. *)
Definition value_group (l : list ascii) : option (list ascii) :=
  match skip_space l with
  | c :: l' => Some (dots (c :: l'))
  | [] => option_map (fun c => [c]) (last_dot l)
  end.

(** [\s*([<>=])\s*(.+)] at [l]: the operator and the third group. *)
Definition operator_and_value (l : list ascii)
  : option (ascii * list ascii) :=
  match skip_space l with
  | c :: l' =>
      if is_op c then option_map (fun g => (c, g)) (value_group l')
      else None
  | [] => None
  end.

(** The pattern after a first group [group1], with [l] left to read: the
    shortest extension of [group1] after which the rest matches. *)
Fixpoint search (group1 : list ascii) (l : list ascii)
  : option (list ascii * ascii * list ascii) :=
  match operator_and_value l with
  | Some (op, group3) => Some (group1, op, group3)
  | None =>
      match l with
      | c :: l' => if is_newline c then None else search (group1 ++ [c]) l'
      | [] => None
      end
  end.

(** [re.match(pattern, s)]: the three groups. *)
Definition where_match (s : string)
  : option (list ascii * ascii * list ascii) :=
  match list_ascii_of_string s with
  | c :: l => if is_newline c then None else search [c] l
  | [] => None
  end.

(** Lines 216-225, on [where_arg]. *)
Definition parse_where (where_arg : string)
  : format_error + (string * string * string) :=
  match where_match where_arg with
  | Some (group1, op, group3) =>
      inr (strip (string_of_list_ascii group1), String op "",
           strip (string_of_list_ascii group3))
  | None => inl WhereFormat
  end.

(** [s.split("=", 1)], for [s] with an [=]. *)
Fixpoint split_first_eq (s : string) : string * string :=
  match s with
  | EmptyString => ("", "")
  | String c s' =>
      if Ascii.eqb c "="%char then ("", s')
      else let '(a, b) := split_first_eq s' in (String c a, b)
  end.

(** Lines 209-214, on the tokens of [--aggregate]. *)
Definition parse_aggregate (tokens : list string)
  : format_error + (string * string) :=
  match tokens with
  | [token] =>
      if contains_eq token then inr (split_first_eq token)
      else inl AggregateFormat
  | _ => inl AggregateFormat
  end.

(** What [parse_args] returned. *)
Record Namespace := {
  ns_file : string;
  ns_where : option (list string);
  ns_aggregate : option (list string);
  ns_order_by : option string
}.

Definition parse (ns : Namespace) : format_error + Args :=
  match
    match ns_aggregate ns with
    | None | Some [] => inr None
    | Some tokens =>
        match parse_aggregate tokens with
        | inr a => inr (Some a)
        | inl e => inl e
        end
    end
  with
  | inl e => inl e
  | inr aggregate =>
      match
        match ns_where ns with
        | None | Some [] => inr None
        | Some (where_arg :: _) =>
            match parse_where where_arg with
            | inr w => inr (Some w)
            | inl e => inl e
            end
        end
      with
      | inl e => inl e
      | inr where_ =>
          inr {| file := ns_file ns; where_ := where_;
                 order_by := ns_order_by ns; aggregate := aggregate |}
      end
  end.
End ArgsParser.

(** The characters of a string, and a text with no whitespace at either
    end (so not empty). *)
Definition chars (s : string) : list ascii := list_ascii_of_string s.


(** ** The table of the test suite (tests/test_main.py, lines 25-30) *)

Definition product (brand price : string) : gmap string cell :=
  <["brand" := CStr brand]> (<["price" := CStr price]> ∅).

Definition DATA : list (gmap string cell) :=
  [product "A" "100"; product "B" "200"; product "C" "300";
   product "A" "400"].

(** [DATA] in the order of its brands. *)
Definition by_brand : list (gmap string cell) :=
  [product "A" "100"; product "A" "400"; product "B" "200";
   product "C" "300"].

(** Further inputs: a column of empty cells, a column that mixes a number
    and a word, one that mixes a number and a missing field, a filter with
    the operator [!], an aggregation [bogus]. *)
Definition blank_rows : list (gmap string cell) :=
  [ {["price" := CStr ""]}; {["price" := CNone]} ].

Definition mixed_rows : list (gmap string cell) :=
  [ {["x" := CStr "1"]}; {["x" := CStr "a"]} ].

Definition short_rows : list (gmap string cell) :=
  [ {["x" := CStr "1"]}; {["x" := CNone]} ].

Definition malformed_args : Args :=
  {| file := "products.csv"; where_ := Some ("price", "!", "100");
     order_by := None; aggregate := None |}.

Definition bogus_args : Args :=
  {| file := "products.csv"; where_ := Some ("price", ">", "150");
     order_by := Some "brand=asc"; aggregate := Some ("price", "bogus") |}.

(** A row with no [price] field, the three options together, and a command
    line whose filter names a column the table does not have. *)
Definition no_price : gmap string cell := {["brand" := CStr "D"]}.

Definition full_args : Args :=
  {| file := "products.csv"; where_ := Some ("price", ">", "150");
     order_by := Some "brand=DESC"; aggregate := Some ("price", "avg") |}.

Definition cost_namespace : ArgsParser.Namespace :=
  {| ArgsParser.ns_file := "products.csv";
     ArgsParser.ns_where := Some ["cost >= 1"];
     ArgsParser.ns_aggregate := Some ["price=avg"];
     ArgsParser.ns_order_by := Some "brand=asc" |}.

Definition cost_args : Args :=
  {| file := "products.csv"; where_ := Some ("cost", ">", "= 1");
     order_by := Some "brand=asc"; aggregate := Some ("price", "avg") |}.

(** ** The order of binary64 numbers

    [SFcompare], the specification of the primitive comparisons, orders the
    numbers other than NaN as it orders these triples lexicographically. *)
Module FloatOrder.
Definition rank (x : spec_float) : Z * Z * Z :=
  match x with
  | S754_nan | S754_zero _ => (0, 0, 0)%Z
  | S754_infinity true => (-2, 0, 0)%Z
  | S754_infinity false => (2, 0, 0)%Z
  | S754_finite true m e => (-1, - e, Zneg m)%Z
  | S754_finite false m e => (1, e, Zpos m)%Z
  end.

Definition lt (a b : Z * Z * Z) : Prop :=
  let '(a1, a2, a3) := a in
  let '(b1, b2, b3) := b in
  (a1 < b1 \/ (a1 = b1 /\ (a2 < b2 \/ (a2 = b2 /\ a3 < b3))))%Z.

(** The rank of a float, [None] for NaN. *)
Definition key (f : float) : option (Z * Z * Z) :=
  match Prim2SF f with
  | S754_nan => None
  | x => Some (rank x)
  end.
End FloatOrder.

(** * Vocabulary of the properties *)

(** ** Keys and their order *)

(** The type of a key, as [type(k)] gives it. *)
Inductive pytype := NoneType | str | float_.

Definition type_of (v : pyval) : pytype :=
  match v with
  | VNone => NoneType
  | VStr _ => str
  | VFloat _ => float_
  end.

(** [y] may follow [x]: its key is not below the key of [x]. *)
Definition not_below {A} (x y : pyval * A) : Prop :=
  py_lt (fst y) (fst x) = Ok false.

(** The key of the pair is [==] to [k]. *)
Definition has_key {A} (k : pyval) (x : pyval * A) : bool := py_eq (fst x) k.

(** Every key of [l] has the type [t], which [<] orders. *)
Definition homogeneous {A} (t : pytype) (l : list (pyval * A)) : Prop :=
  t <> NoneType /\ Forall (fun x => type_of (fst x) = t) l.

(** The pair of an element with its key. *)
Definition keyed_by {A} (key : A -> result pyval) (p : pyval * A) : Prop :=
  key (snd p) = Ok (fst p).

(** The key of [a] is [==] to [k]. *)
Definition key_is {A} (key : A -> result pyval) (k : pyval) (a : A) : bool :=
  match key a with
  | Ok k' => py_eq k' k
  | Raise _ => false
  end.

(** The key of [a] is the float NaN, which [<] does not order: with such
    keys CPython's sort still returns a permutation that a second sort
    leaves alone, in an order that depends on its algorithm. *)
Definition nan_keyed {A} (key : A -> result pyval) (a : A) : Prop :=
  exists f, key a = Ok (VFloat f) /\ PrimFloat.is_nan f = true.

(** The lexicographic order of two strings, written out: the first
    position where they differ decides, and a proper prefix comes first. *)
Fixpoint lex_lt (s1 s2 : string) : bool :=
  match s1, s2 with
  | _, EmptyString => false
  | EmptyString, String _ _ => true
  | String c1 s1', String c2 s2' =>
      if Nat.ltb (nat_of_ascii c1) (nat_of_ascii c2) then true
      else if Nat.eqb (nat_of_ascii c1) (nat_of_ascii c2) then lex_lt s1' s2'
      else false
  end.

Definition float_le (a b : float) : Prop := PrimFloat.leb a b = true.

Definition no_nan (values : list float) : Prop :=
  Forall (fun v => PrimFloat.is_nan v = false) values.

(** The middle of a sorted sequence: its middle value, or the average of
    the two middle values when their number is even. *)
Definition middle (data : list float) : float :=
  let n := length data in
  if Nat.odd n then nth (n / 2) data PrimFloat.nan
  else PrimFloat.div
         (PrimFloat.add (nth (n / 2 - 1) data PrimFloat.nan)
                        (nth (n / 2) data PrimFloat.nan))
         PrimFloat.two.

(** ** Rows and cells *)

(** [match] returns true on the row. *)
Definition passes `{FloatParser} (f : RowFilter.t) (r : gmap string cell)
  : bool :=
  match RowFilter.match_ f r with
  | Ok true => true
  | _ => false
  end.

(** The cell is [None] or the empty string. *)
Definition blank (c : cell) : bool := py_in (of_cell c) [VNone; VStr ""].

Definition blank_at (column : string) (r : gmap string cell) : bool :=
  match r !! column with
  | Some c => blank c
  | None => false
  end.

Definition keep (column : string) (r : gmap string cell) : bool :=
  negb (blank_at column r).

(** The cell of [r] is a non-empty string that [float] rejects. *)
Definition unparsable `{FloatParser} (column : string) (r : gmap string cell)
  : Prop :=
  exists s, r !! column = Some (CStr s) /\ s <> "" /\ float_of_str s = None.

(** The cell of [r] is a string that [float] reads as [v]. *)
Definition parses_as `{FloatParser} (column : string) (r : gmap string cell)
    (v : float) : Prop :=
  exists s, r !! column = Some (CStr s) /\ float_of_str s = Some v.

(** The cell of [r] is a string that [float] reads. *)
Definition numeric `{FloatParser} (column : string) (r : gmap string cell)
  : Prop :=
  exists s f, r !! column = Some (CStr s) /\ float_of_str s = Some f.

(** The cell of [r] is a string that [float] rejects. *)
Definition textual `{FloatParser} (column : string) (r : gmap string cell)
  : Prop :=
  exists s, r !! column = Some (CStr s) /\ float_of_str s = None.

(** ** Commands and output *)

(** A command that prints nothing: any but [AggregateCommand]. *)
Definition silent (cmd : ICommand) : Prop :=
  match cmd with
  | AggregateCommand _ _ _ => False
  | _ => True
  end.

Definition printer_called (t : list event) : Prop :=
  exists rows, In (PrinterPrint rows) t.

(** ** Tactics *)

(** Arithmetic on the ranks of floats. *)
Ltac rank_lia :=
  repeat match goal with
         | a : (Z * Z * Z)%type |- _ => destruct a as [[? ?] ?]
         end;
  unfold FloatOrder.lt in *;
  repeat match goal with
         | H : (_, _) = (_, _) |- _ => injection H as ? ?
         end;
  first [ lia | f_equal; lia | intuition (first [ lia | congruence ]) ].

(** Unfolds the binds of the error monad and splits on their outcomes. *)
Ltac bind_cases :=
  repeat (unfold mbind, mret, result_bind, result_ret in *;
          cbn beta iota in *;
          match goal with
          | H : match ?m with Ok _ => _ | Raise _ => _ end = _ |- _ =>
              let E := fresh "E" in destruct m eqn:E; try discriminate
          | H : (if ?b then _ else _) = _ |- _ =>
              let E := fresh "E" in destruct b eqn:E; try discriminate
          | H : Ok _ = Ok _ |- _ => injection H as H; try subst
          end).

(** * Properties *)

(** ** Comparison of floats and of strings *)

Lemma SFcompare_rank (x y : spec_float) :
  x <> S754_nan -> y <> S754_nan ->
  exists c, SFcompare x y = Some c /\
    match c with
    | Lt => FloatOrder.lt (FloatOrder.rank x) (FloatOrder.rank y)
    | Eq => FloatOrder.rank x = FloatOrder.rank y
    | Gt => FloatOrder.lt (FloatOrder.rank y) (FloatOrder.rank x)
    end.
Proof.
  intros Hx Hy.
  destruct x as [sx|sx| |sx mx ex], y as [sy|sy| |sy my ey];
    try congruence;
    try (destruct sx); try (destruct sy);
    unfold SFcompare, FloatOrder.rank, FloatOrder.lt;
    try (eexists; split; [reflexivity|cbv beta iota; first [reflexivity | lia]]);
    change (Pos.compare_cont Eq mx my) with (Pos.compare mx my);
    destruct (Z.compare_spec ex ey) as [E|E|E];
    try (eexists; split; [reflexivity|cbv beta iota; lia]);
    subst ey;
    destruct (Pos.compare_spec mx my) as [F|F|F]; cbn [CompOpp];
    (eexists; split; [reflexivity|cbv beta iota; first [congruence | lia]]).
Qed.

Lemma rank_trichotomy (a b : Z * Z * Z) :
  FloatOrder.lt a b \/ a = b \/ FloatOrder.lt b a.
Proof.
  destruct a as [[a1 a2] a3], b as [[b1 b2] b3]. unfold FloatOrder.lt.
  destruct (Z.lt_total a1 b1) as [|[|]], (Z.lt_total a2 b2) as [|[|]],
    (Z.lt_total a3 b3) as [|[|]]; subst;
    first [left; lia | right; left; reflexivity | right; right; lia].
Qed.

Lemma key_None_nan (f : float) :
  FloatOrder.key f = None <-> Prim2SF f = S754_nan.
Proof.
  unfold FloatOrder.key. destruct (Prim2SF f); split; congruence.
Qed.

Lemma key_Some_rank (f : float) a :
  FloatOrder.key f = Some a ->
  Prim2SF f <> S754_nan /\ a = FloatOrder.rank (Prim2SF f).
Proof.
  unfold FloatOrder.key. destruct (Prim2SF f); intros E; split; congruence.
Qed.

Lemma key_compare (x y : float) a b :
  FloatOrder.key x = Some a -> FloatOrder.key y = Some b ->
  exists c, SFcompare (Prim2SF x) (Prim2SF y) = Some c /\
    match c with
    | Lt => FloatOrder.lt a b
    | Eq => a = b
    | Gt => FloatOrder.lt b a
    end.
Proof.
  intros [Hx ->]%key_Some_rank [Hy ->]%key_Some_rank.
  now apply SFcompare_rank.
Qed.

Lemma SFcompare_Some (x y : spec_float) c :
  SFcompare x y = Some c -> x <> S754_nan /\ y <> S754_nan.
Proof. destruct x, y; cbn; intros; split; congruence. Qed.

Lemma key_of_compare (x y : float) c :
  SFcompare (Prim2SF x) (Prim2SF y) = Some c ->
  exists a b, FloatOrder.key x = Some a /\ FloatOrder.key y = Some b.
Proof.
  intros [Hx Hy]%SFcompare_Some. unfold FloatOrder.key.
  destruct (Prim2SF x), (Prim2SF y); try congruence; eauto.
Qed.

Lemma float_ltb_iff (x y : float) :
  PrimFloat.ltb x y = true <->
  exists a b, FloatOrder.key x = Some a /\ FloatOrder.key y = Some b /\
              FloatOrder.lt a b.
Proof.
  rewrite FloatAxioms.ltb_spec. unfold SFltb. split.
  - destruct (SFcompare _ _) as [[]|] eqn:E; try discriminate. intros _.
    destruct (key_of_compare _ _ _ E) as (a & b & Ha & Hb).
    destruct (key_compare _ _ _ _ Ha Hb) as (c & Hc & P).
    rewrite E in Hc. injection Hc as <-. eauto.
  - intros (a & b & Ha & Hb & L).
    destruct (key_compare _ _ _ _ Ha Hb) as (c & -> & P).
    destruct c; [subst; exfalso; rank_lia | reflexivity | exfalso; rank_lia].
Qed.

Lemma float_eqb_iff (x y : float) :
  PrimFloat.eqb x y = true <->
  exists a, FloatOrder.key x = Some a /\ FloatOrder.key y = Some a.
Proof.
  rewrite FloatAxioms.eqb_spec. unfold SFeqb. split.
  - destruct (SFcompare _ _) as [[]|] eqn:E; try discriminate. intros _.
    destruct (key_of_compare _ _ _ E) as (a & b & Ha & Hb).
    destruct (key_compare _ _ _ _ Ha Hb) as (c & Hc & P).
    rewrite E in Hc. injection Hc as <-. subst. eauto.
  - intros (a & Ha & Hb).
    destruct (key_compare _ _ _ _ Ha Hb) as (c & -> & P).
    destruct c; [reflexivity | exfalso; rank_lia | exfalso; rank_lia].
Qed.

Lemma float_leb_iff (x y : float) :
  PrimFloat.leb x y = true <->
  exists a b, FloatOrder.key x = Some a /\ FloatOrder.key y = Some b /\
              (a = b \/ FloatOrder.lt a b).
Proof.
  rewrite FloatAxioms.leb_spec. unfold SFleb. split.
  - destruct (SFcompare _ _) as [[]|] eqn:E; try discriminate; intros _;
      destruct (key_of_compare _ _ _ E) as (a & b & Ha & Hb);
      destruct (key_compare _ _ _ _ Ha Hb) as (c & Hc & P);
      rewrite E in Hc; injection Hc as <-; eauto 6.
  - intros (a & b & Ha & Hb & L).
    destruct (key_compare _ _ _ _ Ha Hb) as (c & -> & P).
    destruct c; [reflexivity | reflexivity | exfalso].
    destruct L; [subst|]; rank_lia.
Qed.

Lemma is_nan_key (f : float) :
  PrimFloat.is_nan f = false <-> exists a, FloatOrder.key f = Some a.
Proof.
  unfold PrimFloat.is_nan. rewrite negb_false_iff, float_eqb_iff.
  split; intros (a & H); [destruct H|]; eauto.
Qed.

Lemma float_ltb_asym (x y : float) :
  PrimFloat.ltb x y = true -> PrimFloat.ltb y x = false.
Proof.
  intros (a & b & Ha & Hb & L)%float_ltb_iff.
  apply not_true_is_false. intros (b' & a' & Hb' & Ha' & L')%float_ltb_iff.
  simplify_eq. rank_lia.
Qed.

Lemma float_ltb_eqb (x y k : float) :
  PrimFloat.ltb y x = true -> PrimFloat.eqb y k = true ->
  PrimFloat.eqb x k = false.
Proof.
  intros (a & b & Ha & Hb & L)%float_ltb_iff (c & Hc & Hk)%float_eqb_iff.
  apply not_true_is_false. intros (d & Hd & Hk')%float_eqb_iff.
  simplify_eq. rank_lia.
Qed.

Lemma float_ltb_leb (x y : float) :
  PrimFloat.ltb x y = true -> PrimFloat.leb x y = true.
Proof.
  intros (a & b & Ha & Hb & L)%float_ltb_iff.
  apply float_leb_iff. eauto 6.
Qed.

Lemma float_leb_total (x y : float) :
  PrimFloat.is_nan x = false -> PrimFloat.is_nan y = false ->
  PrimFloat.ltb x y = false -> PrimFloat.leb y x = true.
Proof.
  intros (a & Ha)%is_nan_key (b & Hb)%is_nan_key N.
  apply float_leb_iff. exists b, a. split; [done|]. split; [done|].
  assert (~ FloatOrder.lt a b) as NL.
  { intros L. rewrite (proj2 (float_ltb_iff x y)) in N by eauto 6. done. }
  destruct (rank_trichotomy a b) as [|[|]]; [done|auto..].
Qed.

Lemma float_leb_trans (x y z : float) :
  PrimFloat.leb x y = true -> PrimFloat.leb y z = true ->
  PrimFloat.leb x z = true.
Proof.
  intros (a & b & Ha & Hb & L)%float_leb_iff (b' & c & Hb' & Hc & L')%float_leb_iff.
  simplify_eq. apply float_leb_iff. exists a, c. split; [done|]. split; [done|].
  destruct L, L'; subst; auto; right; rank_lia.
Qed.

Lemma float_leb_refl (x : float) :
  PrimFloat.is_nan x = false -> PrimFloat.leb x x = true.
Proof.
  intros (a & Ha)%is_nan_key. apply float_leb_iff. eauto 6.
Qed.

Lemma string_ltb_asym (x y : string) :
  String.ltb x y = true -> String.ltb y x = false.
Proof.
  unfold String.ltb. rewrite (String.compare_antisym x y).
  destruct (String.compare y x); cbn; congruence.
Qed.

Lemma string_ltb_irrefl (x : string) : String.ltb x x = false.
Proof.
  destruct (String.ltb x x) eqn:E; [|done].
  pose proof (string_ltb_asym _ _ E). congruence.
Qed.

Lemma py_lt_asym (a b : pyval) :
  py_lt a b = Ok true -> py_lt b a = Ok false.
Proof.
  destruct a, b; cbn; try discriminate; intros [= E]; f_equal.
  - now apply string_ltb_asym.
  - now apply float_ltb_asym.
Qed.

Lemma py_lt_eq (x y k : pyval) :
  py_lt y x = Ok true -> py_eq y k = true -> py_eq x k = false.
Proof.
  destruct x, y, k; cbn; try discriminate; try reflexivity; intros [= L] E.
  - apply String.eqb_eq in E. subst. apply String.eqb_neq. intros ->.
    rewrite string_ltb_irrefl in L. discriminate.
  - eapply float_ltb_eqb; eassumption.
Qed.

(** ** The sort *)

Section SortFacts.
Context {A : Type}.
Implicit Types (x y : pyval * A) (l s : list (pyval * A)).

Lemma py_insert_HdRel x y l l' :
  py_insert x l = Ok l' ->
  HdRel not_below y l -> not_below y x -> HdRel not_below y l'.
Proof.
  destruct l as [|z l]; cbn [py_insert]; intros E Hd Hx; bind_cases.
  - now constructor.
  - constructor. now inversion Hd.
  - now constructor.
Qed.

Lemma py_insert_Sorted x l l' :
  py_insert x l = Ok l' -> Sorted not_below l -> Sorted not_below l'.
Proof.
  revert l'. induction l as [|y l IH]; cbn [py_insert]; intros l' E S.
  - bind_cases. repeat constructor.
  - inversion S as [|? ? S' Hd]; subst. bind_cases.
    + constructor; [now apply IH|].
      eapply py_insert_HdRel; [eassumption..|].
      now apply py_lt_asym.
    + constructor; [assumption|]. now constructor.
Qed.

Lemma py_sort_Sorted l s : py_sort l = Ok s -> Sorted not_below s.
Proof.
  revert s. induction l as [|x l IH]; cbn [py_sort]; intros s E.
  - bind_cases. constructor.
  - bind_cases. eapply py_insert_Sorted; eauto.
Qed.

(** A list in which no key is below the one before it is left as it is. *)
Lemma py_sort_fixed l : Sorted not_below l -> py_sort l = Ok l.
Proof.
  induction 1 as [|x l S IH Hd]; [reflexivity|].
  cbn [py_sort]. rewrite IH. cbn.
  destruct Hd as [|y l Hy]; [reflexivity|].
  cbn [py_insert]. unfold not_below in Hy. now rewrite Hy.
Qed.

Lemma py_sort_idempotent l s : py_sort l = Ok s -> py_sort s = Ok s.
Proof. intros E. apply py_sort_fixed. eapply py_sort_Sorted, E. Qed.

Lemma py_insert_Permutation x l l' :
  py_insert x l = Ok l' -> Permutation (x :: l) l'.
Proof.
  revert l'. induction l as [|y l IH]; cbn [py_insert]; intros l' E;
    bind_cases; [reflexivity| |reflexivity].
  rewrite perm_swap. now constructor; apply IH.
Qed.

Lemma py_sort_Permutation l s : py_sort l = Ok s -> Permutation l s.
Proof.
  revert s. induction l as [|x l IH]; cbn [py_sort]; intros s E; bind_cases.
  - reflexivity.
  - etransitivity; [|eapply py_insert_Permutation; eassumption].
    constructor. now apply IH.
Qed.

Lemma py_insert_stable k x l l' :
  py_insert x l = Ok l' ->
  List.filter (has_key k) l' = List.filter (has_key k) (x :: l).
Proof.
  revert l'. induction l as [|y l IH]; cbn [py_insert]; intros l' E;
    bind_cases; [reflexivity| |reflexivity].
  cbn [List.filter]. rewrite (IH _ eq_refl). cbn [List.filter].
  destruct (has_key k y) eqn:Ey, (has_key k x) eqn:Ex; try reflexivity.
  unfold has_key in Ey, Ex. rewrite (py_lt_eq _ _ _ E0 Ey) in Ex.
  discriminate.
Qed.

Lemma py_sort_stable k l s :
  py_sort l = Ok s ->
  List.filter (has_key k) s = List.filter (has_key k) l.
Proof.
  revert s. induction l as [|x l IH]; cbn [py_sort]; intros s E; bind_cases.
  - reflexivity.
  - erewrite py_insert_stable by eassumption.
    cbn [List.filter]. now rewrite (IH _ eq_refl).
Qed.
End SortFacts.

(** *** When the sort raises *)

Lemma py_lt_Ok_iff (a b : pyval) :
  (exists c, py_lt a b = Ok c) <->
  type_of a = type_of b /\ type_of a <> NoneType.
Proof.
  destruct a, b; cbn; split; intros H;
    try (destruct H as [c H]; discriminate);
    try (destruct H as [H1 H2]; first [discriminate | congruence]);
    try (eexists; reflexivity);
    split; congruence.
Qed.

Lemma py_lt_Raise (a b : pyval) e :
  py_lt a b = Raise e -> e = TypeError Unorderable.
Proof. destruct a, b; cbn; congruence. Qed.

Section SortOutcome.
Context {A : Type}.
Implicit Types (x y : pyval * A) (l s : list (pyval * A)).

Lemma py_insert_Raise x l e :
  py_insert x l = Raise e -> e = TypeError Unorderable.
Proof.
  induction l as [|y l IH]; cbn [py_insert]; [discriminate|].
  unfold mbind, result_bind.
  destruct (py_lt _ _) as [[]|e'] eqn:E.
  - destruct (py_insert x l); [discriminate|]. intros [= <-]. now apply IH.
  - discriminate.
  - intros [= <-]. eapply py_lt_Raise, E.
Qed.

Lemma py_sort_Raise l e : py_sort l = Raise e -> e = TypeError Unorderable.
Proof.
  induction l as [|x l IH]; cbn [py_sort]; [discriminate|].
  unfold mbind, result_bind. destruct (py_sort l).
  - apply py_insert_Raise.
  - intros [= <-]. now apply IH.
Qed.

Lemma py_insert_homogeneous t x l :
  homogeneous t (x :: l) -> exists l', py_insert x l = Ok l'.
Proof.
  intros [Ht H]. inversion H as [|? ? Hx Hl]; subst. clear H.
  induction l as [|y l IH]; cbn [py_insert]; [eauto|].
  inversion Hl as [|? ? Hy Hl']; subst.
  destruct (proj2 (py_lt_Ok_iff (fst y) (fst x))) as [c ->];
    [split; congruence|].
  unfold mbind, result_bind. destruct c; [|eauto].
  destruct (IH Hl') as [l' ->]. eauto.
Qed.

Lemma py_sort_homogeneous t l :
  homogeneous t l -> exists s, py_sort l = Ok s.
Proof.
  intros [Ht H]. induction H as [|x l Hx Hl IH]; cbn [py_sort]; [eauto|].
  destruct IH as [s Es]. rewrite Es. unfold mbind, result_bind.
  apply (py_insert_homogeneous (type_of (fst x))). split; [congruence|].
  constructor; [reflexivity|].
  apply py_sort_Permutation in Es. rewrite <- Es.
  eapply Forall_impl; [eassumption|]. cbn. congruence.
Qed.

Lemma py_insert_head_type x y l l' :
  py_insert x (y :: l) = Ok l' ->
  type_of (fst y) = type_of (fst x) /\ type_of (fst x) <> NoneType.
Proof.
  cbn [py_insert]. unfold mbind, result_bind.
  destruct (py_lt _ _) as [c|] eqn:E; [|discriminate]. intros _.
  destruct (proj1 (py_lt_Ok_iff _ _) (ex_intro _ c E)). split; congruence.
Qed.

(** The sort returns exactly on the lists of at most one element and on
    those whose keys are all floats or all strings. *)
Lemma py_sort_Ok_iff l :
  (exists s, py_sort l = Ok s) <->
  (length l <= 1)%nat \/ exists t, homogeneous t l.
Proof.
  split.
  - induction l as [|x l IH]; [cbn; auto with arith|].
    intros [s E]. cbn [py_sort] in E. unfold mbind, result_bind in E.
    destruct (py_sort l) as [s'|] eqn:Es; [|discriminate].
    destruct l as [|y l]; [cbn; auto|]. right.
    assert (exists z, In z (y :: l) /\ type_of (fst z) = type_of (fst x)
                      /\ type_of (fst x) <> NoneType) as (z & Hz & Tz & Tx).
    { pose proof (py_sort_Permutation _ _ Es) as P.
      destruct s' as [|z s']; [now apply Permutation_sym, Permutation_nil_cons in P|].
      exists z. split; [|eapply py_insert_head_type, E].
      eapply Permutation_in; [symmetry; exact P|now left]. }
    exists (type_of (fst x)). split; [assumption|].
    constructor; [reflexivity|].
    destruct IH as [Hlen|[t [Ht Hall]]]; [eauto| |].
    + destruct l; [|cbn in Hlen; lia].
      destruct Hz as [->|[]]. now repeat constructor.
    + rewrite List.Forall_forall in Hall. pose proof (Hall z Hz) as Ez.
      apply List.Forall_forall. intros w Hw. rewrite (Hall w Hw). congruence.
  - intros [Hlen|[t Ht]]; [|eapply py_sort_homogeneous, Ht].
    destruct l as [|x [|y l]]; cbn in *; eauto; lia.
Qed.
End SortOutcome.

(** *** [sorted] with a key function *)

Section SortedFacts.
Context {A : Type} (key : A -> result pyval).
Implicit Types (l out : list A) (s : list (pyval * A)).

Lemma py_keys_Ok l s :
  py_keys key l = Ok s -> map snd s = l /\ Forall (keyed_by key) s.
Proof.
  revert s. induction l as [|a l IH]; cbn [py_keys]; intros s E; bind_cases.
  - split; [reflexivity|constructor].
  - destruct (IH _ eq_refl) as [<- F]. split; [reflexivity|].
    constructor; assumption.
Qed.

Lemma py_keys_keyed s : Forall (keyed_by key) s -> py_keys key (map snd s) = Ok s.
Proof.
  induction 1 as [|[k a] s Hk _ IH]; [reflexivity|].
  cbn [map py_keys snd]. unfold keyed_by in Hk. cbn in Hk.
  rewrite Hk. unfold mbind, result_bind. now rewrite IH.
Qed.

Lemma filter_keyed k s :
  Forall (keyed_by key) s ->
  List.filter (key_is key k) (map snd s) = map snd (List.filter (has_key k) s).
Proof.
  induction 1 as [|[k' a] s Hk _ IH]; [reflexivity|].
  cbn [map List.filter snd]. rewrite IH.
  unfold key_is, has_key, keyed_by in *. cbn in *. rewrite Hk.
  now destruct (py_eq k' k).
Qed.

Lemma py_sorted_inv reverse l out :
  py_sorted key reverse l = Ok out ->
  exists keyed s,
    py_keys key l = Ok keyed /\
    py_sort (if reverse then rev keyed else keyed) = Ok s /\
    out = map snd (if reverse then rev s else s) /\
    Forall (keyed_by key) s.
Proof.
  unfold py_sorted. intros E.
  destruct (py_keys key l) as [keyed|] eqn:Ek; [|discriminate].
  unfold mbind, result_bind in E.
  destruct (py_sort _) as [s|] eqn:Es; [|discriminate].
  injection E as <-. exists keyed, s.
  split; [reflexivity|]. split; [exact Es|]. split; [reflexivity|].
  destruct (py_keys_Ok _ _ Ek) as [_ F].
  apply py_sort_Permutation in Es. rewrite <- Es.
  destruct reverse; [now apply Forall_rev|assumption].
Qed.

Lemma py_sorted_idempotent reverse l out :
  py_sorted key reverse l = Ok out -> py_sorted key reverse out = Ok out.
Proof.
  intros (keyed & s & Ek & Es & -> & F)%py_sorted_inv.
  unfold py_sorted.
  rewrite py_keys_keyed by (destruct reverse; [now apply Forall_rev|done]).
  unfold mbind, result_bind.
  replace (if reverse then rev (if reverse then rev s else s)
           else if reverse then rev s else s) with s
    by (destruct reverse; [now rewrite rev_involutive|reflexivity]).
  now rewrite (py_sort_idempotent _ _ Es).
Qed.

Lemma py_sorted_stable reverse l out k :
  py_sorted key reverse l = Ok out ->
  List.filter (key_is key k) out = List.filter (key_is key k) l.
Proof.
  intros (keyed & s & Ek & Es & -> & F)%py_sorted_inv.
  destruct (py_keys_Ok _ _ Ek) as [<- Fk].
  rewrite (filter_keyed k keyed Fk).
  rewrite filter_keyed by (destruct reverse; [now apply Forall_rev|done]).
  f_equal. destruct reverse.
  - rewrite List.filter_rev, (py_sort_stable _ _ _ Es), List.filter_rev.
    apply rev_involutive.
  - apply (py_sort_stable _ _ _ Es).
Qed.

Lemma py_sorted_Permutation reverse l out :
  py_sorted key reverse l = Ok out -> Permutation l out.
Proof.
  intros (keyed & s & Ek & Es & -> & F)%py_sorted_inv.
  destruct (py_keys_Ok _ _ Ek) as [<- Fk].
  apply Permutation_map. apply py_sort_Permutation in Es.
  destruct reverse; [|assumption].
  now rewrite <- (Permutation_rev s), <- Es, <- (Permutation_rev keyed).
Qed.
End SortedFacts.

(** * The pipeline *)

(** ** The predicate evaluator *)

Lemma ascii_compare_nat (c1 c2 : ascii) :
  Ascii.compare c1 c2 = Nat.compare (nat_of_ascii c1) (nat_of_ascii c2).
Proof.
  unfold Ascii.compare, nat_of_ascii. now rewrite N2Nat.inj_compare.
Qed.

Lemma string_ltb_lex (s1 s2 : string) : String.ltb s1 s2 = lex_lt s1 s2.
Proof.
  unfold String.ltb. revert s2.
  induction s1 as [|c1 s1 IH]; intros [|c2 s2];
    cbn [String.compare lex_lt]; try reflexivity.
  rewrite ascii_compare_nat.
  destruct (Nat.compare_spec (nat_of_ascii c1) (nat_of_ascii c2)) as [E|L|G].
  - rewrite E, Nat.ltb_irrefl, Nat.eqb_refl. apply IH.
  - apply Nat.ltb_lt in L. now rewrite L.
  - destruct (Nat.ltb_spec (nat_of_ascii c1) (nat_of_ascii c2)); [lia|].
    destruct (Nat.eqb_spec (nat_of_ascii c1) (nat_of_ascii c2)); [lia|done].
Qed.

Section Pipeline.
Context {parser : FloatParser}.
Implicit Types (row r : gmap string cell) (rows : list (gmap string cell)).

(** C1. For a row whose cell in the column is a string and an operator
    among [>], [<], [=]: when the cell and the literal both parse as
    floats, [match] returns the comparison of the two numbers; when either
    fails to parse, it returns the comparison of the two raw strings, [=]
    being string equality and [>], [<] the lexicographic order. *)
Theorem RowFilter_match_numeric_or_string r (col lit s : string) :
  r !! col = Some (CStr s) ->
  match float_of_str s, float_of_str lit with
  | Some a, Some b =>
      RowFilter.match_ (RowFilter.init col ">" lit) r
        = Ok (PrimFloat.ltb b a) /\
      RowFilter.match_ (RowFilter.init col "<" lit) r
        = Ok (PrimFloat.ltb a b) /\
      RowFilter.match_ (RowFilter.init col "=" lit) r
        = Ok (PrimFloat.eqb a b)
  | _, _ =>
      RowFilter.match_ (RowFilter.init col ">" lit) r = Ok (lex_lt lit s) /\
      RowFilter.match_ (RowFilter.init col "<" lit) r = Ok (lex_lt s lit) /\
      RowFilter.match_ (RowFilter.init col "=" lit) r = Ok (String.eqb s lit)
  end.
Proof.
  intros Hcell. unfold RowFilter.match_, getitem. cbn [RowFilter.column
    RowFilter.op RowFilter.value]. rewrite Hcell.
  unfold mbind, result_bind, py_float, py_float_str.
  destruct (float_of_str s) as [a|], (float_of_str lit) as [b|];
    cbn; rewrite <- ?string_ltb_lex; done.
Qed.

(** ** FilterCommand *)

Lemma filter_sublist {X} (p : X -> bool) (l : list X) :
  sublist (List.filter p l) l.
Proof.
  induction l as [|x l IH]; cbn; [constructor|].
  destruct (p x); now constructor.
Qed.

Lemma FilterCommand_execute_Ok f rows out :
  FilterCommand_.execute f rows = Ok out -> out = List.filter (passes f) rows.
Proof.
  revert out. induction rows as [|r rows IH]; cbn [FilterCommand_.execute];
    intros out E; bind_cases; [reflexivity|].
  cbn [List.filter]. unfold passes at 1. rewrite E0.
  rewrite <- (IH _ eq_refl). now destruct a.
Qed.

(** C9. Whenever [FilterCommand] returns, it returns exactly the rows on
    which the predicate evaluator returns true, in their input order: a
    subsequence of the input. It returns on every input on whose rows the
    predicate evaluator returns. *)
Theorem FilterCommand_returns_matching_subsequence f rows :
  (forall out, FilterCommand_.execute f rows = Ok out ->
     out = List.filter (passes f) rows) /\
  (Forall (fun r => exists b, RowFilter.match_ f r = Ok b) rows ->
   FilterCommand_.execute f rows = Ok (List.filter (passes f) rows)) /\
  sublist (List.filter (passes f) rows) rows /\
  (forall r, In r (List.filter (passes f) rows) <->
             In r rows /\ RowFilter.match_ f r = Ok true).
Proof.
  split; [|split; [|split]].
  - intros out. apply FilterCommand_execute_Ok.
  - induction 1 as [|r rows [b Hb] _ IH]; [reflexivity|].
    cbn [FilterCommand_.execute List.filter]. unfold passes at 1.
    rewrite Hb, IH. now destruct b.
  - apply filter_sublist.
  - intros r. rewrite List.filter_In. unfold passes.
    split; intros [? E]; (split; [assumption|]).
    + now destruct (RowFilter.match_ f r) as [[]|].
    + now rewrite E.
Qed.

(** ** The aggregator *)

Lemma blank_iff c : blank c = true <-> c = CNone \/ c = CStr "".
Proof.
  destruct c as [|s]; cbn; [intuition|].
  destruct s; cbn; intuition congruence.
Qed.

(** C4. When every cell of the aggregation column is empty or [None] (in
    particular on no rows at all), the aggregator returns [None]: no
    number, NaN included, and no exception. *)
Theorem aggregate_blank_column_None (self : DictAggregator.t) rows :
  Forall (fun r => r !! DictAggregator.column self = Some CNone \/
                   r !! DictAggregator.column self = Some (CStr "")) rows ->
  DictAggregator.aggregate self rows = Ok None.
Proof.
  intros H. unfold DictAggregator.aggregate.
  assert (DictAggregator.values (DictAggregator.column self) rows = Ok [])
    as ->; [|reflexivity].
  induction H as [|r rows Hr _ IH]; [reflexivity|].
  cbn [DictAggregator.values]. unfold getitem.
  destruct Hr as [-> | ->]; cbn; exact IH.
Qed.

Lemma values_skip_blank column rows :
  DictAggregator.values column rows
  = DictAggregator.values column (List.filter (keep column) rows).
Proof.
  induction rows as [|r rows IH]; [reflexivity|].
  cbn [List.filter]. unfold keep at 1, blank_at.
  destruct (r !! column) as [c|] eqn:E.
  - fold (blank c). destruct (blank c) eqn:B; cbn [negb].
    + cbn [DictAggregator.values]. unfold getitem. rewrite E.
      unfold mbind, result_bind. fold (blank c). now rewrite B.
    + cbn [DictAggregator.values]. now rewrite IH.
  - cbn [negb DictAggregator.values]. unfold getitem. now rewrite E.
Qed.

Lemma values_unparsable column rows :
  Forall (fun r => is_Some (r !! column)) rows ->
  Exists (unparsable column) rows ->
  exists s, DictAggregator.values column rows
            = Raise (ValueError (CouldNotConvert s))
            /\ s <> "" /\ float_of_str s = None.
Proof.
  induction 1 as [|r rows [c Hc] _ IH]; intros Hbad;
    [now apply Exists_nil in Hbad|].
  cbn [DictAggregator.values]. unfold getitem. rewrite Hc.
  unfold mbind, result_bind. fold (blank c).
  destruct (blank c) eqn:B; cbn [negb].
  - apply IH. apply Exists_cons in Hbad as [(s & Hs & Hne & _)|]; [|done].
    rewrite Hc in Hs. injection Hs as ->.
    apply blank_iff in B as [|[= ->]]; done.
  - destruct c as [|s]; [discriminate|]. cbn [py_float].
    unfold py_float_str. destruct (float_of_str s) as [v|] eqn:P.
    + apply Exists_cons in Hbad as [(s' & Hs & _ & P')|Hbad].
      * rewrite Hc in Hs. injection Hs as <-. congruence.
      * destruct (IH Hbad) as (s' & -> & ?). eauto.
    + exists s. split; [reflexivity|]. split; [|assumption].
      intros ->. discriminate.
Qed.

Lemma values_parsed column rows :
  Forall (fun r => is_Some (r !! column)) rows ->
  ~ Exists (unparsable column) rows ->
  exists vs, DictAggregator.values column rows = Ok vs /\
    Forall2 (parses_as column) (List.filter (keep column) rows) vs.
Proof.
  induction 1 as [|r rows [c Hc] _ IH]; intros Hgood;
    [exists []; split; [reflexivity|constructor]|].
  destruct IH as (vs & Evs & F); [intros ?; apply Hgood; now right|].
  cbn [DictAggregator.values List.filter]. unfold getitem, keep at 1, blank_at.
  rewrite Hc. unfold mbind, result_bind. fold (blank c).
  destruct (blank c) eqn:B; cbn [negb]; [eauto|].
  destruct c as [|s]; [discriminate|]. cbn [py_float].
  unfold py_float_str. destruct (float_of_str s) as [v|] eqn:P.
  - rewrite Evs. exists (v :: vs). split; [reflexivity|].
    constructor; [|assumption]. now exists s.
  - exfalso. apply Hgood. left. exists s. split; [assumption|].
    split; [|assumption]. intros ->. discriminate.
Qed.

(** C6. Over rows that all have the column, the aggregator leaves out the
    rows whose cell is the empty string or [None]: it returns what it
    returns on the other rows alone. A row whose cell is not empty and
    does not parse as a float is not left out: the aggregation raises the
    [ValueError] of [float]. Otherwise the strategy receives the parsed
    cells of the other rows, in order. *)
Theorem aggregate_excludes_blank_rejects_unparsable
    (self : DictAggregator.t) rows :
  let column := DictAggregator.column self in
  Forall (fun r => is_Some (r !! column)) rows ->
  DictAggregator.aggregate self rows
    = DictAggregator.aggregate self (List.filter (keep column) rows) /\
  (Exists (unparsable column) rows ->
   exists s, DictAggregator.aggregate self rows
             = Raise (ValueError (CouldNotConvert s))
             /\ s <> "" /\ float_of_str s = None) /\
  (~ Exists (unparsable column) rows ->
   exists vs, Forall2 (parses_as column) (List.filter (keep column) rows) vs /\
     DictAggregator.aggregate self rows
     = match vs with
       | [] => Ok None
       | _ => r ← strategy_aggregate (DictAggregator.strategy self) vs;
              Ok (Some r)
       end).
Proof.
  intros column H. unfold DictAggregator.aggregate. fold column.
  split; [|split].
  - now rewrite <- values_skip_blank.
  - intros Hbad. destruct (values_unparsable _ _ H Hbad) as (s & -> & ?).
    now exists s.
  - intros Hgood. destruct (values_parsed _ _ H Hgood) as (vs & -> & F).
    now exists vs.
Qed.

(** ** A malformed operator *)

(** C3, as the code has it. A filter with an operator other than [>], [<],
    [=] is constructed like any other: the operator is stored unchecked.
    It is checked by [match], which on such a filter never returns a
    boolean: it raises, [UnknownOperator] when the row has a string in the
    column. So [FilterCommand] raises on every non-empty input, and on the
    empty input returns the empty list without raising. *)
Theorem malformed_operator_raises_at_match (column op value : string) :
  op <> ">" -> op <> "<" -> op <> "=" ->
  let f := FilterFactory.create column op value in
  f = RowFilter.init column op value /\
  (forall r, exists e, RowFilter.match_ f r = Raise e) /\
  (forall r s, r !! column = Some (CStr s) ->
     RowFilter.match_ f r = Raise (ValueError (UnknownOperator op))) /\
  (forall r rows, exists e, FilterCommand_.execute f (r :: rows) = Raise e) /\
  FilterCommand_.execute f [] = Ok [].
Proof.
  intros Hgt Hlt Heq f.
  apply String.eqb_neq in Hgt, Hlt, Heq.
  assert (forall r s, r !! column = Some (CStr s) ->
            RowFilter.match_ f r = Raise (ValueError (UnknownOperator op)))
    as Hstr.
  { intros r s Hs. subst f.
    unfold RowFilter.match_, getitem, FilterFactory.create.
    cbn [RowFilter.column RowFilter.op RowFilter.value]. rewrite Hs.
    unfold mbind, result_bind, py_float, py_float_str.
    destruct (float_of_str s), (float_of_str value);
      cbn [except_ValueError of_cell]; now rewrite Hgt, Hlt, Heq. }
  assert (forall r, exists e, RowFilter.match_ f r = Raise e) as Hall.
  { intros r. destruct (r !! column) as [[|s]|] eqn:E.
    - subst f. unfold RowFilter.match_, getitem, FilterFactory.create.
      cbn [RowFilter.column]. rewrite E. cbn. eauto.
    - rewrite (Hstr r s E). eauto.
    - subst f. unfold RowFilter.match_, getitem, FilterFactory.create.
      cbn [RowFilter.column]. rewrite E. cbn. eauto. }
  repeat split; try assumption; try reflexivity.
  intros r rows. destruct (Hall r) as [e He]. exists e.
  cbn [FilterCommand_.execute]. now rewrite He.
Qed.

(** ** An unknown aggregation *)

Lemma split_eq_no_eq (s : string) : contains_eq s = false -> split_eq s = [s].
Proof.
  induction s as [|c s IH]; cbn; [reflexivity|].
  destruct (Ascii.eqb c "=") eqn:E; cbn; [discriminate|].
  intros H. now rewrite (IH H).
Qed.

Lemma get_unknown (name : string) :
  name <> "avg" -> name <> "min" -> name <> "max" -> name <> "median" ->
  AggregationStrategyFactory.get name
  = Raise (ValueError (UnknownAggregation name)).
Proof.
  intros. unfold AggregationStrategyFactory.get,
    AggregationStrategyFactory._strategies.
  now rewrite !lookup_insert_ne, lookup_empty by congruence.
Qed.

(** C7. A strategy name other than [avg], [min], [max], [median] is
    refused when the strategy is selected. In [run] this happens while the
    list of commands is built: [run] raises whatever the rows are, with no
    command executed on them and nothing printed. The exception is
    [UnknownAggregation], unless a malformed [--order-by] value was
    refused first. *)
Theorem unknown_aggregation_fails_before_rows (name : string) :
  name <> "avg" -> name <> "min" -> name <> "max" -> name <> "median" ->
  AggregationStrategyFactory.get name
    = Raise (ValueError (UnknownAggregation name)) /\
  (forall column, AggregatorFactory.create column name
    = Raise (ValueError (UnknownAggregation name))) /\
  (forall args column, aggregate args = Some (column, name) ->
     exists e, CsvApp.commands args = Raise e /\
       (forall rows, CsvApp.run args rows = IO [] (Raise e)) /\
       ((forall s, order_by args = Some s -> s <> "" ->
           exists c d, split_eq s = [c; d]) ->
        e = ValueError (UnknownAggregation name))).
Proof.
  intros H1 H2 H3 H4. pose proof (get_unknown name H1 H2 H3 H4) as G.
  split; [assumption|].
  assert (forall column, AggregatorFactory.create column name
            = Raise (ValueError (UnknownAggregation name))) as C.
  { intros column. unfold AggregatorFactory.create. now rewrite G. }
  split; [assumption|]. intros args column Ha.
  assert (exists e, CsvApp.commands args = Raise e /\
            ((forall s, order_by args = Some s -> s <> "" ->
                exists c d, split_eq s = [c; d]) ->
             e = ValueError (UnknownAggregation name))) as (e & Ec & He).
  { unfold CsvApp.commands. rewrite Ha, C. unfold mbind, result_bind.
    destruct (order_by args) as [[|ch s]|];
      try (eexists; split; [reflexivity|intros _; reflexivity]).
    destruct (contains_eq (String ch s)) eqn:Ec; cbn [negb].
    - destruct (split_eq (String ch s)) as [|c [|d [|x l]]] eqn:Es;
        try (eexists; split; [reflexivity|]; intros W;
             destruct (W _ eq_refl) as (c' & d' & Es'); [done|];
             rewrite Es in Es'; discriminate).
      eexists; split; [reflexivity|intros _; reflexivity].
    - eexists; split; [reflexivity|]. intros W.
      destruct (W _ eq_refl) as (c' & d' & Es); [done|].
      rewrite (split_eq_no_eq _ Ec) in Es. discriminate. }
  exists e. split; [assumption|]. split; [|assumption].
  intros rows. unfold CsvApp.run. rewrite Ec. reflexivity.
Qed.

(** ** The orchestrator *)

Lemma execute_silent cmd rows :
  silent cmd -> exists res, execute cmd rows = IO [] res.
Proof. destruct cmd; cbn; intros []; unfold lift; eauto. Qed.

Lemma execute_all_silent pre post rows :
  Forall silent pre ->
  exists res, CsvApp.execute_all pre rows = IO [] res /\
    CsvApp.execute_all (pre ++ post) rows
    = match res with
      | Ok mid => CsvApp.execute_all post mid
      | Raise e => IO [] (Raise e)
      end.
Proof.
  intros H. revert rows. induction H as [|c pre Hc _ IH]; intros rows.
  - exists (Ok rows). split; reflexivity.
  - destruct (execute_silent c rows Hc) as [[mid|e] Hr];
      cbn [CsvApp.execute_all app]; rewrite Hr;
      unfold mbind, io_bind; cbn [outcome trace app].
    + destruct (IH mid) as (res & E1 & E2). exists res.
      rewrite E1, E2. split; [reflexivity|].
      destruct res as [m|e']; [|reflexivity].
      now destruct (CsvApp.execute_all post m).
    + exists (Raise e). split; reflexivity.
Qed.

(** The commands [run] builds: silent ones, then the [AggregateCommand]
    when an aggregate was requested. *)
Lemma commands_shape args cmds :
  CsvApp.commands args = Ok cmds ->
  exists pre, Forall silent pre /\
    match aggregate args with
    | None => cmds = pre
    | Some (column, func) =>
        exists a, AggregatorFactory.create column func = Ok a /\
                  cmds = (pre ++ [AggregateCommand a column func])%list
    end.
Proof.
  unfold CsvApp.commands. unfold mbind at 1. unfold result_bind.
  set (start := match where_ args with
                | Some (column, op, value) =>
                    ([] ++ [FilterCommand_.init column op value])%list
                | None => []
                end).
  assert (Forall silent start) as Hstart.
  { subst start. destruct (where_ args) as [[[? ?] ?]|]; repeat constructor. }
  clearbody start.
  match goal with
  | |- match ?m with Ok _ => _ | Raise _ => _ end = _ -> _ =>
      assert (forall l, m = Ok l -> Forall silent l) as Hmid;
      [|destruct m as [l|]; [specialize (Hmid l eq_refl)|discriminate]]
  end.
  { intros l. destruct (order_by args) as [[|ch s]|];
      try (intros [= <-]; assumption).
    destruct (negb _); [discriminate|].
    destruct (split_eq _) as [|c [|d [|x t]]]; try discriminate.
    intros [= <-]. apply Forall_app. split; [assumption|].
    repeat constructor. }
  destruct (aggregate args) as [[column func]|].
  - unfold mbind, result_bind.
    destruct (AggregatorFactory.create column func) as [a|] eqn:Ea;
      [|discriminate].
    intros [= <-]. eauto.
  - intros [= <-]. eauto.
Qed.

(** What [run] can do: raise having printed nothing; print the final rows
    through the printer, when no aggregate was requested; or print the
    aggregate alone, when one was. *)
Lemma run_outcomes args rows :
  (exists e, CsvApp.run args rows = IO [] (Raise e)) \/
  (aggregate args = None /\
   exists cmds final,
     CsvApp.commands args = Ok cmds /\
     CsvApp.execute_all cmds rows = IO [] (Ok final) /\
     CsvApp.run args rows = IO [PrinterPrint final] (Ok tt)) \/
  (exists column func a mid v,
     aggregate args = Some (column, func) /\
     AggregatorFactory.create column func = Ok a /\
     DictAggregator.aggregate a mid = Ok v /\
     CsvApp.run args rows = IO [PrintAggregate func v] (Ok tt)).
Proof.
  unfold CsvApp.run.
  destruct (CsvApp.commands args) as [cmds|e] eqn:Ec; [|left; eauto].
  destruct (commands_shape _ _ Ec) as (pre & Hpre & Hshape).
  unfold lift, mbind, io_bind; cbn [outcome trace app].
  destruct (aggregate args) as [[column func]|] eqn:Ea.
  - destruct Hshape as (a & Hcreate & ->).
    destruct (execute_all_silent pre [AggregateCommand a column func]
                rows Hpre) as (res & _ & ->).
    destruct res as [mid|e]; [|left; eexists; reflexivity].
    cbn [CsvApp.execute_all execute]. unfold AggregateCommand_.execute.
    destruct (DictAggregator.aggregate a mid) as [v|e] eqn:Ev;
      [|left; eexists; reflexivity].
    right. right. exists column, func, a, mid, v.
    repeat split; try assumption.
  - subst cmds.
    destruct (execute_all_silent pre [] rows Hpre) as (res & E & _).
    rewrite E. destruct res as [final|e]; [|left; eexists; reflexivity].
    right. left. split; [reflexivity|]. exists pre, final.
    repeat split; try assumption.
Qed.

Lemma AggregateCommand_returns_input aggregator func rows out :
  outcome (AggregateCommand_.execute aggregator func rows) = Ok out ->
  out = rows.
Proof.
  unfold AggregateCommand_.execute, lift, emit, mbind, io_bind.
  destruct (DictAggregator.aggregate aggregator rows); cbn; congruence.
Qed.

(** C10. [run] calls the printer exactly when no aggregate was requested
    (and nothing raised): then it prints the final rows, once. When an
    aggregate was requested the printer is not called and [run] prints the
    aggregate alone. [AggregateCommand] returns the rows it was given. *)
Theorem printer_called_iff_no_aggregate args rows :
  let res := CsvApp.run args rows in
  (printer_called (trace res) <->
   aggregate args = None /\ outcome res = Ok tt)
  /\
  (aggregate args = None -> outcome res = Ok tt ->
   exists cmds final,
     CsvApp.commands args = Ok cmds /\
     outcome (CsvApp.execute_all cmds rows) = Ok final /\
     trace res = [PrinterPrint final])
  /\
  (forall column func, aggregate args = Some (column, func) ->
     outcome res = Ok tt -> exists v, trace res = [PrintAggregate func v])
  /\
  (forall aggregator func rows' out,
     outcome (AggregateCommand_.execute aggregator func rows') = Ok out ->
     out = rows').
Proof.
  intros res. subst res.
  assert (forall aggregator func rows' out,
            outcome (AggregateCommand_.execute aggregator func rows')
            = Ok out -> out = rows') as Hpass
    by apply AggregateCommand_returns_input.
  destruct (run_outcomes args rows)
    as [[e ->]|[(Ha & cmds & final & Ec & Ef & ->)
               |(c & f & a & mid & v & Ha & _ & _ & ->)]];
    cbn [trace outcome].
  - split; [split; [intros [? []]|intros [_ [=]]]|].
    split; [intros _ [=]|]. split; [intros ? ? _ [=]|exact Hpass].
  - split.
    { split; [intros _; now split|]. intros _. exists final. now left. }
    split; [intros _ _; exists cmds, final; rewrite Ef; auto|].
    split; [intros ? ? Hc; congruence|exact Hpass].
  - split; [split; [intros [? [[=]|[]]]|intros [Hn _]; congruence]|].
    split; [intros Hn; congruence|].
    split; [|exact Hpass].
    intros c' f' Hc _. rewrite Ha in Hc. injection Hc as <- <-. eauto.
Qed.

(** ** OrderByCommand *)

(** C8. Sorting a sorted result again changes nothing: the result is a
    permutation of the rows that the sort leaves as it is. The sort is
    stable: when no key is NaN, the rows with a given key come out in the
    order they came in, for every key. *)
Theorem OrderBy_idempotent_stable column reverse rows out :
  OrderByCommand_.execute column reverse rows = Ok out ->
  OrderByCommand_.execute column reverse out = Ok out /\
  Permutation rows out /\
  (Forall (fun r => ~ nan_keyed (OrderByCommand_.key_func column) r) rows ->
   forall k, List.filter (key_is (OrderByCommand_.key_func column) k) out
             = List.filter (key_is (OrderByCommand_.key_func column) k) rows).
Proof.
  unfold OrderByCommand_.execute. intros E. split; [|split].
  - eapply py_sorted_idempotent, E.
  - eapply py_sorted_Permutation, E.
  - intros _ k. eapply py_sorted_stable, E.
Qed.

Lemma key_func_numeric column r :
  numeric column r ->
  exists f, OrderByCommand_.key_func column r = Ok (VFloat f).
Proof.
  intros (s & f & Hs & Hf). exists f.
  unfold OrderByCommand_.key_func, getitem. rewrite Hs. cbn.
  unfold py_float_str. now rewrite Hf.
Qed.

Lemma key_func_textual column r :
  textual column r ->
  exists s, OrderByCommand_.key_func column r = Ok (VStr s).
Proof.
  intros (s & Hs & Hf). exists s.
  unfold OrderByCommand_.key_func, getitem. rewrite Hs. cbn.
  unfold py_float_str. now rewrite Hf.
Qed.

Lemma key_func_present column r :
  is_Some (r !! column) -> exists k, OrderByCommand_.key_func column r = Ok k.
Proof.
  intros [c Hc]. unfold OrderByCommand_.key_func, getitem. rewrite Hc.
  cbn. destruct c as [|s]; cbn; [eauto|].
  unfold py_float_str. destruct (float_of_str s); eauto.
Qed.

Lemma py_keys_total {X} (key : X -> result pyval) (l : list X) :
  Forall (fun a => exists k, key a = Ok k) l ->
  exists s, py_keys key l = Ok s /\ map snd s = l /\ Forall (keyed_by key) s.
Proof.
  induction 1 as [|a l [k Hk] _ (s & Es & Ms & Fs)].
  - exists []. repeat split. constructor.
  - exists ((k, a) :: s). cbn [py_keys]. rewrite Hk, Es. cbn.
    rewrite Ms. repeat split. now constructor.
Qed.

Lemma keyed_In {X} (key : X -> result pyval) (s : list (pyval * X)) a k :
  Forall (keyed_by key) s -> In a (map snd s) -> key a = Ok k -> In (k, a) s.
Proof.
  intros F (p & <- & Hp)%in_map_iff Hk.
  rewrite List.Forall_forall in F. specialize (F p Hp).
  unfold keyed_by in F. rewrite F in Hk. injection Hk as <-.
  now destruct p.
Qed.

(** X1. On a column that has a numeric cell and a non-numeric one the sort
    raises [TypeError]: it compares a [float] with a [str]. *)
Lemma OrderBy_mixed_raises column reverse rows :
  Forall (fun r => is_Some (r !! column)) rows ->
  Exists (numeric column) rows -> Exists (textual column) rows ->
  OrderByCommand_.execute column reverse rows = Raise (TypeError Unorderable).
Proof.
  intros Hall Hnum Htxt.
  destruct (py_keys_total (OrderByCommand_.key_func column) rows)
    as (s & Es & Ms & Fs).
  { eapply Forall_impl; [exact Hall|]. apply key_func_present. }
  unfold OrderByCommand_.execute, py_sorted. rewrite Es.
  unfold mbind, result_bind.
  apply List.Exists_exists in Hnum as (r1 & In1 & [f Hf]%key_func_numeric).
  apply List.Exists_exists in Htxt as (r2 & In2 & [t Ht]%key_func_textual).
  rewrite <- Ms in In1, In2.
  pose proof (keyed_In _ _ _ _ Fs In1 Hf) as K1.
  pose proof (keyed_In _ _ _ _ Fs In2 Ht) as K2.
  set (input := if reverse then rev s else s).
  assert (In (VFloat f, r1) input /\ In (VStr t, r2) input) as [J1 J2].
  { subst input. destruct reverse; [|auto]. split; now apply -> in_rev. }
  destruct (py_sort input) as [sorted|e] eqn:E.
  - exfalso.
    destruct (proj1 (py_sort_Ok_iff input) (ex_intro _ _ E))
      as [Hlen|(ty & _ & Hty)].
    + destruct input as [|x [|y l]]; cbn in Hlen; [done| |lia].
      destruct J1 as [->|[]], J2 as [[=]|[]].
    + rewrite List.Forall_forall in Hty.
      pose proof (Hty _ J1) as T1. pose proof (Hty _ J2) as T2.
      cbn in T1, T2. congruence.
  - now rewrite (py_sort_Raise _ _ E).
Qed.

(** X2. On a column whose cells are all numeric, or all non-numeric
    strings, the sort returns. *)
Lemma OrderBy_uniform_returns column reverse rows :
  Forall (numeric column) rows \/ Forall (textual column) rows ->
  exists out, OrderByCommand_.execute column reverse rows = Ok out.
Proof.
  intros H.
  assert (exists ty, ty <> NoneType /\
            Forall (fun r => exists k, OrderByCommand_.key_func column r = Ok k
                                       /\ type_of k = ty) rows)
    as (ty & Hty & Hk).
  { destruct H as [H|H]; [exists float_|exists str]; (split; [done|]);
      (eapply Forall_impl; [exact H|]); intros r Hr.
    - destruct (key_func_numeric _ _ Hr) as [f ->]. eauto.
    - destruct (key_func_textual _ _ Hr) as [t ->]. eauto. }
  destruct (py_keys_total (OrderByCommand_.key_func column) rows)
    as (s & Es & Ms & Fs).
  { eapply Forall_impl; [exact Hk|]. intros r (k & ? & _). eauto. }
  unfold OrderByCommand_.execute, py_sorted. rewrite Es.
  unfold mbind, result_bind.
  destruct (py_sort_homogeneous ty (if reverse then rev s else s))
    as [sorted ->]; [|eauto].
  split; [assumption|].
  assert (Forall (fun x => type_of (fst x) = ty) s) as Hs.
  { apply List.Forall_forall. intros [k r] Hin.
    rewrite List.Forall_forall in Hk, Fs.
    destruct (Hk r) as (k' & Ek & Tk).
    { rewrite <- Ms. apply in_map_iff. now exists (k, r). }
    specialize (Fs _ Hin). unfold keyed_by in Fs. cbn in *. congruence. }
  destruct reverse; [now apply Forall_rev|assumption].
Qed.
End Pipeline.

(** ** The aggregation strategies *)

Lemma py_min_least (first : float) (rest : list float) :
  In (py_min first rest) (first :: rest) /\
  (no_nan (first :: rest) ->
   Forall (float_le (py_min first rest)) (first :: rest)).
Proof.
  unfold py_min. revert first.
  induction rest as [|x rest IH]; intros first; cbn [fold_left].
  - split; [now left|]. intros N. inversion N; subst.
    repeat constructor. now apply float_leb_refl.
  - set (cur := if PrimFloat.ltb x first then x else first).
    destruct (IH cur) as [Hin Hle]. split.
    + destruct Hin as [<-|Hin]; [|now right; right].
      subst cur. destruct (PrimFloat.ltb x first); cbn; auto.
    + intros N. inversion N as [|? ? Nf N']; subst.
      inversion N' as [|? ? Nx Nr]; subst.
      assert (PrimFloat.is_nan cur = false) as Nc
        by (subst cur; now destruct (PrimFloat.ltb x first)).
      assert (no_nan (cur :: rest)) as Ncr by now constructor.
      specialize (Hle Ncr).
      inversion Hle as [|? ? Hc Hr]; subst.
      assert (float_le cur first /\ float_le cur x) as [Cf Cx].
      { subst cur. unfold float_le.
        destruct (PrimFloat.ltb x first) eqn:L.
        - split; [now apply float_ltb_leb|now apply float_leb_refl].
        - split; [now apply float_leb_refl|now apply float_leb_total]. }
      constructor; [eapply float_leb_trans; eassumption|].
      constructor; [eapply float_leb_trans; eassumption|assumption].
Qed.

Lemma py_max_greatest (first : float) (rest : list float) :
  In (py_max first rest) (first :: rest) /\
  (no_nan (first :: rest) ->
   Forall (fun v => float_le v (py_max first rest)) (first :: rest)).
Proof.
  unfold py_max. revert first.
  induction rest as [|x rest IH]; intros first; cbn [fold_left].
  - split; [now left|]. intros N. inversion N; subst.
    repeat constructor. now apply float_leb_refl.
  - set (cur := if PrimFloat.ltb first x then x else first).
    destruct (IH cur) as [Hin Hle]. split.
    + destruct Hin as [<-|Hin]; [|now right; right].
      subst cur. destruct (PrimFloat.ltb first x); cbn; auto.
    + intros N. inversion N as [|? ? Nf N']; subst.
      inversion N' as [|? ? Nx Nr]; subst.
      assert (PrimFloat.is_nan cur = false) as Nc
        by (subst cur; now destruct (PrimFloat.ltb first x)).
      assert (no_nan (cur :: rest)) as Ncr by now constructor.
      specialize (Hle Ncr).
      inversion Hle as [|? ? Hc Hr]; subst.
      assert (float_le first cur /\ float_le x cur) as [Cf Cx].
      { subst cur. unfold float_le.
        destruct (PrimFloat.ltb first x) eqn:L.
        - split; [now apply float_ltb_leb|now apply float_leb_refl].
        - split; [now apply float_leb_refl|now apply float_leb_total]. }
      constructor; [eapply float_leb_trans; eassumption|].
      constructor; [eapply float_leb_trans; eassumption|assumption].
Qed.

Lemma Sorted_map_on {X Y} (R : X -> X -> Prop) (R' : Y -> Y -> Prop)
    (f : X -> Y) (P : X -> Prop) (l : list X) :
  (forall x y, P x -> P y -> R x y -> R' (f x) (f y)) ->
  Forall P l -> Sorted R l -> Sorted R' (map f l).
Proof.
  intros HR HP HS. induction HS as [|x l HS IH Hd]; [constructor|].
  inversion HP as [|? ? Px Pl]; subst. cbn [map].
  constructor; [now apply IH|].
  destruct Hd as [|y l Hy]; [constructor|].
  inversion Pl; subst. constructor. now apply HR.
Qed.

(** [sorted] on floats returns; the result is a permutation of the input,
    in ascending order when no element is NaN. *)
Lemma py_sorted_floats (values : list float) :
  exists data,
    py_sorted (fun f => Ok (VFloat f)) false values = Ok data /\
    Permutation values data /\
    (no_nan values -> Sorted float_le data).
Proof.
  set (key := fun f : float => Ok (VFloat f)).
  destruct (py_keys_total key values) as (s & Es & Ms & Fs).
  { apply List.Forall_forall. intros f _. now exists (VFloat f). }
  assert (Forall (fun x => fst x = VFloat (snd x)) s) as Hs.
  { eapply Forall_impl; [exact Fs|]. intros [k f]. unfold keyed_by, key.
    cbn. congruence. }
  destruct (py_sort_homogeneous float_ s) as [sorted E].
  { split; [done|]. eapply Forall_impl; [exact Hs|].
    intros [k f]. cbn. now intros ->. }
  exists (map snd sorted). unfold py_sorted. rewrite Es.
  unfold mbind, result_bind. rewrite E. split; [reflexivity|].
  pose proof (py_sort_Permutation _ _ E) as P. split.
  - rewrite <- Ms. now apply Permutation_map.
  - intros N.
    apply (Sorted_map_on not_below float_le snd
             (fun x => fst x = VFloat (snd x)
                       /\ PrimFloat.is_nan (snd x) = false)).
    + intros [k1 f1] [k2 f2] [K1 N1] [K2 N2]. unfold not_below. cbn in *.
      subst. cbn. intros [= L]. now apply float_leb_total.
    + rewrite <- P. apply List.Forall_forall. intros x Hx. split.
      * rewrite List.Forall_forall in Hs. now apply Hs.
      * unfold no_nan in N. rewrite List.Forall_forall in N. apply N.
        rewrite <- Ms. now apply in_map.
    + eapply py_sort_Sorted, E.
Qed.

Lemma mod2_odd (n : nat) : Nat.eqb (n mod 2) 1 = Nat.odd n.
Proof.
  rewrite <- Nat.bit0_mod, Nat.bit0_odd. now destruct (Nat.odd n).
Qed.

(** C5. Over a non-empty list of floats: [avg] is the sum divided by the
    number of values; [min] (resp. [max]) returns an element of the list,
    below (resp. above) every element when none is NaN; [median] returns
    the middle of the sorted list, a permutation of the input that is in
    ascending order when none is NaN. Over [100, 200, 300, 400] they
    return 250, 100, 400 and 250. *)
Theorem strategies_compute_reference (values : list float) :
  values <> [] ->
  strategy_aggregate AvgAggregation values
    = Ok (PrimFloat.div (fold_left PrimFloat.add values PrimFloat.zero)
            (PrimFloat.of_uint63 (Uint63.of_Z (Z.of_nat (length values)))))
  /\
  (exists m, strategy_aggregate MinAggregation values = Ok m /\
     In m values /\ (no_nan values -> Forall (float_le m) values))
  /\
  (exists m, strategy_aggregate MaxAggregation values = Ok m /\
     In m values /\ (no_nan values -> Forall (fun v => float_le v m) values))
  /\
  (exists data, Permutation values data /\
     (no_nan values -> Sorted float_le data) /\
     strategy_aggregate MedianAggregation values = Ok (middle data))
  /\
  (strategy_aggregate AvgAggregation [100; 200; 300; 400]%float
     = Ok 250%float /\
   strategy_aggregate MinAggregation [100; 200; 300; 400]%float
     = Ok 100%float /\
   strategy_aggregate MaxAggregation [100; 200; 300; 400]%float
     = Ok 400%float /\
   strategy_aggregate MedianAggregation [100; 200; 300; 400]%float
     = Ok 250%float).
Proof.
  intros Hne. destruct values as [|v rest]; [done|].
  split; [reflexivity|].
  split; [exists (py_min v rest); split; [reflexivity|apply py_min_least]|].
  split; [exists (py_max v rest); split; [reflexivity|apply py_max_greatest]|].
  split; [|repeat split; vm_compute; reflexivity].
  destruct (py_sorted_floats (v :: rest)) as (data & E & P & S).
  exists data. split; [assumption|]. split; [assumption|].
  cbn [strategy_aggregate]. unfold py_median. rewrite E.
  unfold mbind, result_bind, middle. rewrite mod2_odd.
  now destruct (Nat.odd (length data)).
Qed.


(** * The properties on the table of the test suite *)

(** C1 on the table: [price > 150] compares numbers, [brand = A] strings. *)
Lemma RowFilter_match_numeric_or_string_witness :
  (@RowFilter.match_ decimal_float (RowFilter.init "price" ">" "150")
     (product "B" "200") = Ok (PrimFloat.ltb 150 200) /\
   @RowFilter.match_ decimal_float (RowFilter.init "price" "<" "150")
     (product "B" "200") = Ok (PrimFloat.ltb 200 150) /\
   @RowFilter.match_ decimal_float (RowFilter.init "price" "=" "150")
     (product "B" "200") = Ok (PrimFloat.eqb 200 150)) /\
  (@RowFilter.match_ decimal_float (RowFilter.init "brand" ">" "A")
     (product "B" "200") = Ok (lex_lt "A" "B") /\
   @RowFilter.match_ decimal_float (RowFilter.init "brand" "<" "A")
     (product "B" "200") = Ok (lex_lt "B" "A") /\
   @RowFilter.match_ decimal_float (RowFilter.init "brand" "=" "A")
     (product "B" "200") = Ok (String.eqb "B" "A")).
Proof.
  split.
  - apply (@RowFilter_match_numeric_or_string decimal_float
             (product "B" "200") "price" "150" "200").
    vm_compute. reflexivity.
  - apply (@RowFilter_match_numeric_or_string decimal_float
             (product "B" "200") "brand" "A" "B").
    vm_compute. reflexivity.
Defined.

(** C2 at a column that mixes a number and a word, in either direction,
    and at one that mixes a number and a missing field: the sort raises. *)
Theorem OrderBy_mixed_column_raises :
  @OrderByCommand_.execute decimal_float "x" false mixed_rows
    = Raise (TypeError Unorderable) /\
  @OrderByCommand_.execute decimal_float "x" true mixed_rows
    = Raise (TypeError Unorderable) /\
  @OrderByCommand_.execute decimal_float "x" false short_rows
    = Raise (TypeError Unorderable).
Proof. repeat split; vm_compute; reflexivity. Qed.

(** C3 as stated does not hold: a filter with the operator [!] is built,
    the pipeline holding it is assembled, and on the empty input [run]
    prints the empty table without raising. *)
Lemma malformed_operator_filter_is_built :
  FilterFactory.create "price" "!" "100" = RowFilter.init "price" "!" "100" /\
  CsvApp.commands malformed_args
    = Ok [FilterCommand (RowFilter.init "price" "!" "100")] /\
  @CsvApp.run decimal_float malformed_args [] = IO [PrinterPrint []] (Ok tt).
Proof. repeat split. Qed.

Lemma malformed_operator_raises_at_match_witness :
  @RowFilter.match_ decimal_float (FilterFactory.create "price" "!" "100")
    (product "A" "100") = Raise (ValueError (UnknownOperator "!")) /\
  @FilterCommand_.execute decimal_float
    (FilterFactory.create "price" "!" "100") [] = Ok [].
Proof.
  pose proof (@malformed_operator_raises_at_match decimal_float
                "price" "!" "100") as H.
  destruct H as (_ & _ & Hstr & _ & Hnil); try discriminate.
  split; [|exact Hnil].
  apply (Hstr (product "A" "100") "100"). vm_compute. reflexivity.
Defined.

Lemma aggregate_blank_column_None_witness :
  @DictAggregator.aggregate decimal_float
    (DictAggregator.init "price" AvgAggregation) blank_rows = Ok None /\
  @DictAggregator.aggregate decimal_float
    (DictAggregator.init "price" AvgAggregation) [] = Ok None.
Proof.
  split; apply (@aggregate_blank_column_None decimal_float).
  - constructor; [right; vm_compute; reflexivity|].
    constructor; [left; vm_compute; reflexivity|constructor].
  - constructor.
Defined.

Lemma strategies_compute_reference_witness :
  exists data,
    Permutation [300; 100; 400; 200]%float data /\
    strategy_aggregate MedianAggregation [300; 100; 400; 200]%float
    = Ok (middle data).
Proof.
  destruct (strategies_compute_reference [300; 100; 400; 200]%float)
    as (_ & _ & _ & (data & P & _ & E) & _); [discriminate|].
  exists data. split; assumption.
Defined.

Lemma aggregate_excludes_blank_rejects_unparsable_witness :
  @DictAggregator.aggregate decimal_float
    (DictAggregator.init "price" AvgAggregation) (blank_rows ++ DATA)
  = @DictAggregator.aggregate decimal_float
      (DictAggregator.init "price" AvgAggregation)
      (List.filter (keep "price") (blank_rows ++ DATA)).
Proof.
  apply (@aggregate_excludes_blank_rejects_unparsable decimal_float
           (DictAggregator.init "price" AvgAggregation) (blank_rows ++ DATA)).
  repeat constructor; vm_compute; eexists; reflexivity.
Defined.

Lemma unknown_aggregation_fails_before_rows_witness :
  @CsvApp.run decimal_float bogus_args DATA
  = IO [] (Raise (ValueError (UnknownAggregation "bogus"))).
Proof.
  destruct (@unknown_aggregation_fails_before_rows decimal_float "bogus")
    as (_ & _ & H); try discriminate.
  destruct (H bogus_args "price" eq_refl) as (e & _ & Hrun & He).
  rewrite Hrun, He; [reflexivity|].
  intros s [= <-] _. exists "brand", "asc". reflexivity.
Defined.

Lemma OrderBy_idempotent_stable_witness :
  @OrderByCommand_.execute decimal_float "brand" false by_brand = Ok by_brand
  /\
  List.filter
    (key_is (@OrderByCommand_.key_func decimal_float "brand") (VStr "A"))
    by_brand
  = List.filter
      (key_is (@OrderByCommand_.key_func decimal_float "brand") (VStr "A"))
      DATA.
Proof.
  destruct (@OrderBy_idempotent_stable decimal_float "brand" false DATA
              by_brand) as (Hidem & _ & Hstable).
  - vm_compute. reflexivity.
  - split; [exact Hidem|]. apply Hstable.
    repeat constructor; intros (f & E & _); vm_compute in E; discriminate.
Defined.

(** X1 on the mixed column. *)
Lemma OrderBy_mixed_raises_witness :
  @OrderByCommand_.execute decimal_float "x" true mixed_rows
  = Raise (TypeError Unorderable).
Proof.
  apply (@OrderBy_mixed_raises decimal_float "x" true mixed_rows).
  - repeat constructor; vm_compute; eexists; reflexivity.
  - left. exists "1", 1%float. split; vm_compute; reflexivity.
  - right. left. exists "a". split; vm_compute; reflexivity.
Defined.

(** X2 on the table: both of its columns sort. *)
Lemma OrderBy_uniform_returns_witness :
  (exists out, @OrderByCommand_.execute decimal_float "price" true DATA
               = Ok out) /\
  (exists out, @OrderByCommand_.execute decimal_float "brand" true DATA
               = Ok out).
Proof.
  split; apply (@OrderBy_uniform_returns decimal_float).
  - left. unfold DATA.
    constructor; [exists "100", 100%float; split; vm_compute; reflexivity|].
    constructor; [exists "200", 200%float; split; vm_compute; reflexivity|].
    constructor; [exists "300", 300%float; split; vm_compute; reflexivity|].
    constructor; [exists "400", 400%float; split; vm_compute; reflexivity|].
    constructor.
  - right. unfold DATA.
    constructor; [exists "A"; split; vm_compute; reflexivity|].
    constructor; [exists "B"; split; vm_compute; reflexivity|].
    constructor; [exists "C"; split; vm_compute; reflexivity|].
    constructor; [exists "A"; split; vm_compute; reflexivity|].
    constructor.
Defined.

Lemma FilterCommand_returns_matching_subsequence_witness :
  @FilterCommand_.execute decimal_float (RowFilter.init "price" ">" "150") DATA
  = Ok (List.filter (@passes decimal_float (RowFilter.init "price" ">" "150"))
          DATA).
Proof.
  apply (@FilterCommand_returns_matching_subsequence decimal_float).
  unfold DATA.
  constructor; [exists false; vm_compute; reflexivity|].
  constructor; [exists true; vm_compute; reflexivity|].
  constructor; [exists true; vm_compute; reflexivity|].
  constructor; [exists true; vm_compute; reflexivity|].
  constructor.
Defined.


(** * Further properties of the pipeline *)

(** ** Selecting a strategy *)

(** X3. The registry accepts exactly the four names, spelled as they are,
    each with its strategy; [AggregatorFactory.create] succeeds on the same
    names and pairs the strategy with the column it was given. *)
Theorem get_known_iff (name : string) :
  (forall s, AggregationStrategyFactory.get name = Ok s <->
     (name = "avg" /\ s = AvgAggregation) \/
     (name = "min" /\ s = MinAggregation) \/
     (name = "max" /\ s = MaxAggregation) \/
     (name = "median" /\ s = MedianAggregation)) /\
  (forall column a,
     AggregatorFactory.create column name = Ok a <->
     exists s, AggregationStrategyFactory.get name = Ok s /\
               a = DictAggregator.init column s).
Proof.
  split.
  - intros s. unfold AggregationStrategyFactory.get,
      AggregationStrategyFactory._strategies.
    destruct (decide (name = "avg")) as [->|N1].
    { rewrite lookup_insert_eq. split; [intros [= <-]; auto|].
      intros [[_ ->]|[[[=] _]|[[[=] _]|[[=] _]]]]. reflexivity. }
    rewrite lookup_insert_ne by congruence.
    destruct (decide (name = "min")) as [->|N2].
    { rewrite lookup_insert_eq. split; [intros [= <-]; auto|].
      intros [[[=] _]|[[_ ->]|[[[=] _]|[[=] _]]]]. reflexivity. }
    rewrite lookup_insert_ne by congruence.
    destruct (decide (name = "max")) as [->|N3].
    { rewrite lookup_insert_eq. split; [intros [= <-]; auto|].
      intros [[[=] _]|[[[=] _]|[[_ ->]|[[=] _]]]]. reflexivity. }
    rewrite lookup_insert_ne by congruence.
    destruct (decide (name = "median")) as [->|N4].
    { rewrite lookup_insert_eq. split; [intros [= <-]; auto 6|].
      intros [[[=] _]|[[[=] _]|[[[=] _]|[_ ->]]]]. reflexivity. }
    rewrite lookup_insert_ne, lookup_empty by congruence.
    split; [discriminate|]. intros [[? _]|[[? _]|[[? _]|[? _]]]]; congruence.
  - intros column a. unfold AggregatorFactory.create.
    destruct (AggregationStrategyFactory.get name) as [s'|e]; cbn.
    + split; [intros [= <-]; eauto|]. intros (s & [= ->] & ->). reflexivity.
    + split; [discriminate|]. intros (s & [=] & _).
Qed.

(** ** The filter *)

Lemma float_ltb_not_eqb (a b : float) :
  PrimFloat.ltb a b = true -> PrimFloat.eqb a b = false.
Proof.
  intros (x & y & Hx & Hy & L)%float_ltb_iff.
  apply not_true_is_false. intros (z & Hz & Hz')%float_eqb_iff.
  simplify_eq. rank_lia.
Qed.

Lemma float_trichotomy (a b : float) :
  PrimFloat.is_nan a = false -> PrimFloat.is_nan b = false ->
  PrimFloat.ltb a b = true \/ PrimFloat.eqb a b = true \/
  PrimFloat.ltb b a = true.
Proof.
  intros (x & Hx)%is_nan_key (y & Hy)%is_nan_key.
  destruct (rank_trichotomy x y) as [L|[->|L]].
  - left. apply float_ltb_iff. eauto 6.
  - right. left. apply float_eqb_iff. eauto.
  - right. right. apply float_ltb_iff. eauto 6.
Qed.

Lemma float_eqb_refl (a : float) :
  PrimFloat.eqb a a = negb (PrimFloat.is_nan a).
Proof. unfold PrimFloat.is_nan. now rewrite negb_involutive. Qed.

Lemma string_trichotomy (s t : string) :
  String.ltb s t = true \/ String.eqb s t = true \/ String.ltb t s = true.
Proof.
  unfold String.ltb. rewrite (String.compare_antisym t s).
  destruct (String.compare s t) eqn:E; cbn; auto.
  apply String.compare_eq_iff in E. subst. rewrite String.eqb_refl. auto.
Qed.

Lemma string_ltb_not_eqb (s t : string) :
  String.ltb s t = true -> String.eqb s t = false.
Proof.
  intros L. apply String.eqb_neq. intros ->.
  rewrite string_ltb_irrefl in L. discriminate.
Qed.

Section Filter.
Context {parser : FloatParser}.
Implicit Types (r : gmap string cell) (rows : list (gmap string cell)).

(** What [match] compares for a string cell [s] and the literal [lit]. *)
Lemma match_operands r (f : RowFilter.t) (s : string) :
  r !! RowFilter.column f = Some (CStr s) ->
  RowFilter.match_ f r
  = let '(x, y) :=
      match float_of_str s, float_of_str (RowFilter.value f) with
      | Some a, Some b => (VFloat a, VFloat b)
      | _, _ => (VStr s, VStr (RowFilter.value f))
      end in
    if String.eqb (RowFilter.op f) ">" then py_gt x y
    else if String.eqb (RowFilter.op f) "<" then py_lt x y
    else if String.eqb (RowFilter.op f) "=" then Ok (py_eq x y)
    else Raise (ValueError (UnknownOperator (RowFilter.op f))).
Proof.
  intros Hs. unfold RowFilter.match_, getitem. rewrite Hs.
  unfold mbind, result_bind, py_float, py_float_str.
  destruct (float_of_str s), (float_of_str (RowFilter.value f)); reflexivity.
Qed.

Lemma match_reads_cell_first_aux (f : RowFilter.t) r :
  (r !! RowFilter.column f = None ->
   RowFilter.match_ f r = Raise (KeyError (RowFilter.column f))) /\
  (r !! RowFilter.column f = Some CNone ->
   RowFilter.match_ f r = Raise (TypeError FloatArgument)).
Proof.
  split; intros E; unfold RowFilter.match_, getitem; rewrite E; reflexivity.
Qed.

(** X4. [match] reads the cell before it looks at the operator: on a row
    without the column it raises [KeyError], and on a row whose cell is
    [None] the [TypeError] of [float(None)], which its [except ValueError]
    does not catch; both whatever the operator is, a malformed one
    included. *)
Theorem match_reads_cell_first (f : RowFilter.t) r :
  (r !! RowFilter.column f = None ->
   RowFilter.match_ f r = Raise (KeyError (RowFilter.column f))) /\
  (r !! RowFilter.column f = Some CNone ->
   RowFilter.match_ f r = Raise (TypeError FloatArgument)).
Proof.
  split; intros E; unfold RowFilter.match_, getitem; rewrite E; reflexivity.
Qed.

(** X5. On a row with a string in the column, the filters [>], [<] and [=]
    with one literal all return, and at most one of them returns true;
    exactly one does, unless the cell and the literal both parse and one
    of them is NaN. *)
Theorem operators_partition r (col lit s : string) :
  r !! col = Some (CStr s) ->
  exists g l e : bool,
    RowFilter.match_ (RowFilter.init col ">" lit) r = Ok g /\
    RowFilter.match_ (RowFilter.init col "<" lit) r = Ok l /\
    RowFilter.match_ (RowFilter.init col "=" lit) r = Ok e /\
    g && l = false /\ g && e = false /\ l && e = false /\
    ((forall a b, float_of_str s = Some a -> float_of_str lit = Some b ->
        PrimFloat.is_nan a = false /\ PrimFloat.is_nan b = false) ->
     g || l || e = true).
Proof.
  intros Hs.
  rewrite !(match_operands r _ s) by exact Hs. cbn.
  destruct (float_of_str s) as [a|], (float_of_str lit) as [b|]; cbn.
  - exists (PrimFloat.ltb b a), (PrimFloat.ltb a b), (PrimFloat.eqb a b).
    repeat split.
    + destruct (PrimFloat.ltb b a) eqn:G; [|reflexivity].
      cbn. now apply float_ltb_asym.
    + destruct (PrimFloat.ltb b a) eqn:G; [|reflexivity]. cbn.
      apply not_true_is_false. intros (z & Hz & Hz')%float_eqb_iff.
      apply float_ltb_iff in G as (x & y & Hx & Hy & L). simplify_eq.
      rank_lia.
    + destruct (PrimFloat.ltb a b) eqn:L; [|reflexivity]. cbn.
      now apply float_ltb_not_eqb.
    + intros N. destruct (N a b eq_refl eq_refl) as [Na Nb].
      destruct (float_trichotomy a b Na Nb) as [-> | [-> | ->]];
        rewrite ?orb_true_r; reflexivity.
  - exists (String.ltb lit s), (String.ltb s lit), (String.eqb s lit).
    repeat split.
    + destruct (String.ltb lit s) eqn:G; [|reflexivity].
      cbn. now apply string_ltb_asym.
    + destruct (String.ltb lit s) eqn:G; [|reflexivity]. cbn.
      rewrite String.eqb_sym. now apply string_ltb_not_eqb.
    + destruct (String.ltb s lit) eqn:L; [|reflexivity]. cbn.
      now apply string_ltb_not_eqb.
    + intros _. destruct (string_trichotomy s lit) as [-> | [-> | ->]];
        rewrite ?orb_true_r; reflexivity.
  - exists (String.ltb lit s), (String.ltb s lit), (String.eqb s lit).
    repeat split.
    + destruct (String.ltb lit s) eqn:G; [|reflexivity].
      cbn. now apply string_ltb_asym.
    + destruct (String.ltb lit s) eqn:G; [|reflexivity]. cbn.
      rewrite String.eqb_sym. now apply string_ltb_not_eqb.
    + destruct (String.ltb s lit) eqn:L; [|reflexivity]. cbn.
      now apply string_ltb_not_eqb.
    + intros _. destruct (string_trichotomy s lit) as [-> | [-> | ->]];
        rewrite ?orb_true_r; reflexivity.
  - exists (String.ltb lit s), (String.ltb s lit), (String.eqb s lit).
    repeat split.
    + destruct (String.ltb lit s) eqn:G; [|reflexivity].
      cbn. now apply string_ltb_asym.
    + destruct (String.ltb lit s) eqn:G; [|reflexivity]. cbn.
      rewrite String.eqb_sym. now apply string_ltb_not_eqb.
    + destruct (String.ltb s lit) eqn:L; [|reflexivity]. cbn.
      now apply string_ltb_not_eqb.
    + intros _. destruct (string_trichotomy s lit) as [-> | [-> | ->]];
        rewrite ?orb_true_r; reflexivity.
Qed.

(** X6. The filter [column = s] accepts a row whose cell is the very text
    [s], unless that text parses as NaN: [nan] is not equal to itself. *)
Theorem equality_on_same_text r (col s : string) :
  r !! col = Some (CStr s) ->
  RowFilter.match_ (RowFilter.init col "=" s) r
  = Ok match float_of_str s with
       | Some a => negb (PrimFloat.is_nan a)
       | None => true
       end.
Proof.
  intros Hs. rewrite (match_operands r _ s) by exact Hs. cbn.
  destruct (float_of_str s) as [a|]; cbn.
  - now rewrite float_eqb_refl.
  - now rewrite String.eqb_refl.
Qed.

Lemma FilterCommand_all_pass (f : RowFilter.t) rows :
  Forall (fun r => RowFilter.match_ f r = Ok true) rows ->
  FilterCommand_.execute f rows = Ok rows.
Proof.
  induction 1 as [|r rows Hr _ IH]; [reflexivity|].
  cbn [FilterCommand_.execute]. now rewrite Hr, IH.
Qed.

(** X7. Filtering is idempotent: on what [FilterCommand] returned, the
    same command returns it unchanged (and does not raise). *)
Theorem FilterCommand_idempotent (f : RowFilter.t) rows out :
  FilterCommand_.execute f rows = Ok out ->
  FilterCommand_.execute f out = Ok out.
Proof.
  intros E. apply FilterCommand_all_pass.
  rewrite (FilterCommand_execute_Ok _ _ _ E).
  apply List.Forall_forall. intros r [_ Hp]%List.filter_In.
  unfold passes in Hp. now destruct (RowFilter.match_ f r) as [[]|].
Qed.

(** X8. [FilterCommand] raises the exception of the first row on which
    [match] raises: the rows after it are not looked at, and no partial
    result is returned. *)
Theorem FilterCommand_first_error (f : RowFilter.t) pre r post e :
  Forall (fun r' => exists b, RowFilter.match_ f r' = Ok b) pre ->
  RowFilter.match_ f r = Raise e ->
  FilterCommand_.execute f (pre ++ r :: post) = Raise e.
Proof.
  intros Hpre Hr. induction Hpre as [|r' pre [b Hb] _ IH]; cbn.
  - now rewrite Hr.
  - now rewrite Hb, IH.
Qed.
End Filter.

(** ** The sort *)

Lemma Sorted_adjacent {X} (R : X -> X -> Prop) (l1 l2 : list X) (x y : X) :
  Sorted R (l1 ++ x :: y :: l2)%list -> R x y.
Proof.
  induction l1 as [|z l1 IH]; cbn; intros S; inversion S as [|? ? S' Hd]; subst.
  - now inversion Hd.
  - now apply IH.
Qed.

Lemma map_snd_adjacent {X} (s : list (pyval * X)) (l1 l2 : list X) (a b : X) :
  map snd s = (l1 ++ a :: b :: l2)%list ->
  exists s1 s2 ka kb, s = (s1 ++ (ka, a) :: (kb, b) :: s2)%list.
Proof.
  intros (s1 & s' & -> & _ & E)%List.map_eq_app.
  apply List.map_eq_cons in E as ([ka a'] & s'' & -> & Ea & E).
  apply List.map_eq_cons in E as ([kb b'] & s2 & -> & Eb & _).
  cbn in Ea, Eb. subst. now exists s1, s2, ka, kb.
Qed.

Section Sort.
Context {parser : FloatParser}.
Implicit Types (r a b : gmap string cell) (rows out : list (gmap string cell)).

(** X9. The rows [OrderByCommand] returns are in the order of their keys:
    for two rows next to each other, the key of the second is not [<] the
    key of the first, and with [reverse] the key of the first is not [<]
    the key of the second. On float keys other than NaN that is [<=],
    respectively [>=]. *)
Theorem OrderBy_output_ordered column reverse rows out l1 a b l2 :
  OrderByCommand_.execute column reverse rows = Ok out ->
  out = (l1 ++ a :: b :: l2)%list ->
  exists ka kb,
    OrderByCommand_.key_func column a = Ok ka /\
    OrderByCommand_.key_func column b = Ok kb /\
    (if reverse then py_lt ka kb else py_lt kb ka) = Ok false /\
    (forall x y, ka = VFloat x -> kb = VFloat y ->
       PrimFloat.is_nan x = false -> PrimFloat.is_nan y = false ->
       if reverse then float_le y x else float_le x y).
Proof.
  unfold OrderByCommand_.execute.
  intros (keyed & s & _ & Es & -> & F)%py_sorted_inv E.
  pose proof (py_sort_Sorted _ _ Es) as S.
  assert (exists ka kb,
            keyed_by (OrderByCommand_.key_func column) (ka, a) /\
            keyed_by (OrderByCommand_.key_func column) (kb, b) /\
            (if reverse then py_lt ka kb else py_lt kb ka) = Ok false)
    as (ka & kb & Ka & Kb & L).
  { rewrite List.Forall_forall in F. destruct reverse.
    - apply map_snd_adjacent in E as (s1 & s2 & ka & kb & E).
      apply (f_equal (@rev _)) in E. rewrite rev_involutive in E.
      rewrite rev_app_distr in E. cbn in E. rewrite <- !app_assoc in E.
      cbn in E. subst s. exists ka, kb. split; [|split].
      + apply F. apply in_app_iff. right. right. now left.
      + apply F. apply in_app_iff. right. now left.
      + apply (Sorted_adjacent _ _ _ _ _ S).
    - apply map_snd_adjacent in E as (s1 & s2 & ka & kb & ->).
      exists ka, kb. split; [|split].
      + apply F. apply in_app_iff. right. now left.
      + apply F. apply in_app_iff. right. right. now left.
      + apply (Sorted_adjacent _ _ _ _ _ S). }
  exists ka, kb. split; [exact Ka|]. split; [exact Kb|]. split; [exact L|].
  intros x y -> -> Nx Ny. unfold float_le.
  destruct reverse; cbn in L; injection L as L; now apply float_leb_total.
Qed.

Lemma key_func_missing column r :
  r !! column = None ->
  OrderByCommand_.key_func column r = Raise (KeyError column).
Proof.
  intros E. unfold OrderByCommand_.key_func, getitem. now rewrite E.
Qed.

Lemma key_func_Raise column r e :
  OrderByCommand_.key_func column r = Raise e -> e = KeyError column.
Proof.
  unfold OrderByCommand_.key_func, getitem.
  destruct (r !! column) as [[|s]|]; cbn; try congruence.
  unfold py_float_str. destruct (float_of_str s); cbn; congruence.
Qed.

(** X10. When a row lacks the sort column, [OrderByCommand] raises
    [KeyError] for that column: every key is computed before any two are
    compared, so this holds also where comparing the keys would raise. *)
Theorem OrderBy_missing_column column reverse rows :
  Exists (fun r => r !! column = None) rows ->
  OrderByCommand_.execute column reverse rows = Raise (KeyError column).
Proof.
  intros H. unfold OrderByCommand_.execute, py_sorted.
  assert (py_keys (OrderByCommand_.key_func column) rows
          = Raise (KeyError column)) as ->; [|reflexivity].
  induction H as [r rows Hr|r rows _ IH]; cbn [py_keys].
  - now rewrite (key_func_missing _ _ Hr).
  - destruct (OrderByCommand_.key_func column r) as [k|e] eqn:E; cbn.
    + now rewrite IH.
    + now rewrite (key_func_Raise _ _ _ E).
Qed.
End Sort.

(** ** The aggregator *)

Section Aggregator.
Context {parser : FloatParser}.
Implicit Types (r : gmap string cell) (rows : list (gmap string cell)).

Lemma strategy_nonempty_Some (s : IAggregationStrategy) (v : float)
    (vs : list float) (o : option float) :
  (r ← strategy_aggregate s (v :: vs); Ok (Some r)) = Ok o -> o <> None.
Proof.
  unfold mbind, result_bind.
  destruct (strategy_aggregate s (v :: vs)); [|discriminate].
  now intros [= <-].
Qed.

Lemma values_nil_iff column rows :
  DictAggregator.values column rows = Ok [] <->
  Forall (fun r => blank_at column r = true) rows.
Proof.
  induction rows as [|r rows IH]; [split; [constructor|reflexivity]|].
  cbn [DictAggregator.values]. unfold getitem.
  rewrite List.Forall_cons_iff. unfold blank_at at 1.
  destruct (r !! column) as [c|]; unfold mbind, result_bind;
    cbv beta iota.
  - fold (blank c). destruct (blank c) eqn:B; cbn [negb].
    + rewrite IH. intuition.
    + split; [|intros [[=] _]].
      destruct (py_float c); [|discriminate].
      destruct (DictAggregator.values column rows); discriminate.
  - split; [discriminate|]. intros [[=] _].
Qed.

(** X11. The aggregator returns [None] exactly when every row has the
    column and holds [None] or the empty string in it: a single cell with
    other content gives a number or an exception. *)
Theorem aggregate_None_iff (self : DictAggregator.t) rows :
  DictAggregator.aggregate self rows = Ok None <->
  Forall (fun r => blank_at (DictAggregator.column self) r = true) rows.
Proof.
  rewrite <- values_nil_iff. unfold DictAggregator.aggregate.
  destruct (DictAggregator.values _ rows) as [[|v vs]|e];
    unfold mbind at 1, result_bind at 1; cbv beta iota.
  - split; reflexivity.
  - split; [|discriminate]. intros E.
    now apply strategy_nonempty_Some in E.
  - split; discriminate.
Qed.

Lemma values_from_rows column rows vs :
  DictAggregator.values column rows = Ok vs ->
  forall v, In v vs -> exists r, In r rows /\ parses_as column r v.
Proof.
  revert vs. induction rows as [|r rows IH]; cbn [DictAggregator.values];
    intros vs E v Hv.
  - injection E as <-. destruct Hv.
  - unfold getitem in E. destruct (r !! column) as [c|] eqn:Hc;
      [|discriminate].
    unfold mbind, result_bind in E. cbv beta iota in E.
    fold (blank c) in E. destruct (blank c) eqn:B; cbn [negb] in E.
    + destruct (IH _ E v Hv) as (r' & ? & ?). exists r'.
      split; [now right|assumption].
    + destruct c as [|s]; [discriminate|]. cbn [py_float] in E.
      unfold py_float_str in E.
      destruct (float_of_str s) as [x|] eqn:P; [|discriminate].
      destruct (DictAggregator.values column rows) as [vs'|];
        [|discriminate].
      injection E as <-. destruct Hv as [<-|Hv].
      * exists r. split; [now left|]. now exists s.
      * destruct (IH _ eq_refl v Hv) as (r' & ? & ?). exists r'.
        split; [now right|assumption].
Qed.

(** X12. With the strategy [min] or [max], the number the aggregator
    returns is the parsed cell of one of the rows: it is never a value
    that no row holds. *)
Theorem aggregate_min_max_is_a_cell (self : DictAggregator.t) rows v :
  DictAggregator.strategy self = MinAggregation \/
  DictAggregator.strategy self = MaxAggregation ->
  DictAggregator.aggregate self rows = Ok (Some v) ->
  exists r, In r rows /\ parses_as (DictAggregator.column self) r v.
Proof.
  intros Hs. unfold DictAggregator.aggregate, mbind, result_bind.
  destruct (DictAggregator.values _ rows) as [[|x vs]|e] eqn:E;
    try discriminate.
  intros Hv. apply (values_from_rows _ _ _ E).
  destruct Hs as [Hs|Hs]; rewrite Hs in Hv; cbn [strategy_aggregate] in Hv;
    injection Hv as <-.
  - apply py_min_least.
  - apply py_max_greatest.
Qed.

(** X13. When a row lacks the column, and the rows before it have it with
    cells that are blank or parse, the aggregator raises [KeyError] for
    that column, whatever the strategy and the rows after. *)
Theorem aggregate_missing_column (self : DictAggregator.t) pre r post :
  Forall (fun r' => is_Some (r' !! DictAggregator.column self)) pre ->
  ~ Exists (unparsable (DictAggregator.column self)) pre ->
  r !! DictAggregator.column self = None ->
  DictAggregator.aggregate self (pre ++ r :: post)
  = Raise (KeyError (DictAggregator.column self)).
Proof.
  intros Hpre Hgood Hr. unfold DictAggregator.aggregate.
  assert (DictAggregator.values (DictAggregator.column self)
            (pre ++ r :: post)
          = Raise (KeyError (DictAggregator.column self))) as ->;
    [|reflexivity].
  induction Hpre as [|r' pre [c Hc] _ IH]; cbn [app DictAggregator.values].
  - unfold getitem. now rewrite Hr.
  - unfold getitem. rewrite Hc. unfold mbind, result_bind. cbv beta iota.
    fold (blank c).
    assert (~ Exists (unparsable (DictAggregator.column self)) pre) as Hgood'
      by (intros ?; apply Hgood; now right).
    destruct (blank c) eqn:B; cbn [negb]; [now apply IH|].
    destruct c as [|s]; [discriminate|]. cbn [py_float].
    unfold py_float_str.
    destruct (float_of_str s) as [x|] eqn:P.
    + now rewrite (IH Hgood').
    + exfalso. apply Hgood. left. exists s. split; [assumption|].
      split; [|assumption]. intros ->. discriminate.
Qed.
End Aggregator.

(** ** Assembling and running the pipeline *)

Lemma contains_eq_app (a b : string) :
  contains_eq (a ++ b) = contains_eq a || contains_eq b.
Proof.
  induction a as [|c a IH]; [reflexivity|].
  change (String c a ++ b) with (String c (a ++ b)).
  cbn [contains_eq]. now rewrite IH, orb_assoc.
Qed.

Lemma split_eq_app (c rest : string) :
  contains_eq c = false ->
  split_eq (c ++ "=" ++ rest) = c :: split_eq rest.
Proof.
  induction c as [|ch c IH]; [reflexivity|].
  change (String ch c ++ "=" ++ rest) with (String ch (c ++ "=" ++ rest)).
  cbn [contains_eq split_eq].
  destruct (Ascii.eqb ch "=") eqn:E; cbn [orb]; [discriminate|].
  intros H. now rewrite (IH H).
Qed.

Lemma split_eq_not_nil (s : string) : split_eq s <> [].
Proof.
  destruct s as [|ch s]; cbn; [discriminate|].
  destruct (Ascii.eqb ch "="); [discriminate|].
  destruct (split_eq s); discriminate.
Qed.

Lemma split_eq_one (s p : string) :
  split_eq s = [p] -> s = p /\ contains_eq s = false.
Proof.
  revert p. induction s as [|ch s IH]; cbn; intros p.
  - now intros [= <-].
  - destruct (Ascii.eqb ch "=") eqn:E; cbn.
    + intros [= _ H]. now apply split_eq_not_nil in H.
    + destruct (split_eq s) as [|q qs] eqn:Es.
      * now apply split_eq_not_nil in Es.
      * intros [= <- ->]. destruct (IH q eq_refl) as [-> ?]. auto.
Qed.

Lemma split_eq_more (s p q : string) (rest : list string) :
  split_eq s = p :: q :: rest ->
  exists s', s = p ++ "=" ++ s' /\ contains_eq p = false /\
             split_eq s' = q :: rest.
Proof.
  revert p. induction s as [|ch s IH]; cbn; intros p; [discriminate|].
  destruct (Ascii.eqb ch "=") eqn:E; cbn.
  - intros [= <- H]. apply Ascii.eqb_eq in E. subst ch.
    exists s. auto.
  - destruct (split_eq s) as [|p' ps] eqn:Es;
      [now apply split_eq_not_nil in Es|].
    intros [= <- ->].
    destruct (IH p' eq_refl) as (s' & -> & Hp & Hs').
    exists s'. change (String ch p' ++ "=" ++ s')
      with (String ch (p' ++ "=" ++ s')).
    cbn [contains_eq]. rewrite E, Hp. auto.
Qed.

(** X14. [run] accepts an [--order-by] value exactly when it has one [=]:
    the text before it is the column and the sort is descending when the
    text after it is [desc] in any case; every other direction, a
    misspelt one included, sorts ascending. A value with no [=] or with
    several is refused. *)
Theorem order_by_token (f s : string) :
  s <> "" ->
  forall cmds,
    CsvApp.commands {| file := f; where_ := None; order_by := Some s;
                       aggregate := None |} = Ok cmds <->
    exists column direction,
      s = column ++ "=" ++ direction /\
      contains_eq column = false /\ contains_eq direction = false /\
      cmds = [OrderByCommand column (String.eqb (lower direction) "desc")].
Proof.
  intros Hs cmds. unfold CsvApp.commands. cbn [where_ order_by aggregate].
  destruct s as [|ch s]; [done|]. clear Hs.
  unfold mbind, result_bind. split.
  - destruct (contains_eq (String ch s)); cbn [negb]; [|discriminate].
    destruct (split_eq (String ch s)) as [|c [|d [|x l]]] eqn:Es;
      try discriminate.
    intros [= <-].
    destruct (split_eq_more _ _ _ _ Es) as (s' & E & Hc & Es').
    destruct (split_eq_one _ _ Es') as [-> Hd].
    exists c, d. auto.
  - intros (c & d & E & Hc & Hd & ->). rewrite E.
    rewrite contains_eq_app, Hc. cbn [contains_eq orb negb Ascii.eqb].
    replace (contains_eq ("=" ++ d)) with true by reflexivity.
    cbn [negb]. rewrite (split_eq_app c d Hc), (split_eq_no_eq d Hd).
    reflexivity.
Qed.

Section Run.
Context {parser : FloatParser}.
Implicit Types (rows : list (gmap string cell)).

(** X15. With the three options given, [run] filters, sorts what the
    filter returned, aggregates what the sort returned, and prints the
    aggregate alone; the first stage that raises ends the run with nothing
    printed. *)
Theorem run_filters_sorts_aggregates (args : Args) rows
    (c o v column direction acolumn func : string)
    (strategy : IAggregationStrategy) :
  where_ args = Some (c, o, v) ->
  order_by args = Some (column ++ "=" ++ direction) ->
  contains_eq column = false -> contains_eq direction = false ->
  aggregate args = Some (acolumn, func) ->
  AggregationStrategyFactory.get func = Ok strategy ->
  CsvApp.run args rows
  = match FilterCommand_.execute (RowFilter.init c o v) rows with
    | Raise e => IO [] (Raise e)
    | Ok filtered =>
        match OrderByCommand_.execute column
                (String.eqb (lower direction) "desc") filtered with
        | Raise e => IO [] (Raise e)
        | Ok sorted =>
            match DictAggregator.aggregate
                    (DictAggregator.init acolumn strategy) sorted with
            | Raise e => IO [] (Raise e)
            | Ok value => IO [PrintAggregate func value] (Ok tt)
            end
        end
    end.
Proof.
  intros Hw Ho Hc Hd Ha Hg.
  assert (CsvApp.commands args
          = Ok [FilterCommand (RowFilter.init c o v);
                OrderByCommand column (String.eqb (lower direction) "desc");
                AggregateCommand (DictAggregator.init acolumn strategy)
                  acolumn func]) as Ec.
  { unfold CsvApp.commands, AggregatorFactory.create.
    rewrite Hw, Ho, Ha, Hg.
    assert (exists ch t, column ++ "=" ++ direction = String ch t) as (ch & t & E).
    { destruct column; cbn; eauto. }
    rewrite E. rewrite <- E.
    rewrite contains_eq_app, Hc. replace (contains_eq ("=" ++ direction))
      with true by reflexivity.
    unfold mbind, result_bind. cbn [orb negb].
    rewrite (split_eq_app column direction Hc),
      (split_eq_no_eq direction Hd).
    reflexivity. }
  unfold CsvApp.run. rewrite Ec, Ha.
  unfold lift, mbind, io_bind. cbn [outcome trace app CsvApp.execute_all
    execute lift].
  unfold mbind, io_bind, lift. cbn [outcome trace app].
  destruct (FilterCommand_.execute _ rows) as [filtered|e];
    cbn [outcome trace app]; [|reflexivity].
  destruct (OrderByCommand_.execute column _ filtered) as [sorted|e];
    cbn [outcome trace app]; [|reflexivity].
  unfold AggregateCommand_.execute, lift, emit, mbind, io_bind, mret, io_ret.
  cbn [outcome trace app].
  destruct (DictAggregator.aggregate _ sorted) as [value|e];
    cbn [outcome trace app]; reflexivity.
Qed.
End Run.

(** ** The argument parser *)



Lemma is_op_cases (c : ascii) :
  ArgsParser.is_op c = true ->
  String c "" = "<" \/ String c "" = ">" \/ String c "" = "=".
Proof.
  unfold ArgsParser.is_op. intros H.
  apply orb_true_iff in H as [H|H]; [apply orb_true_iff in H as [H|H]|];
    apply Ascii.eqb_eq in H; subst c; auto.
Qed.










Lemma no_operator_no_match (l : list ascii) :
  Forall (fun c => ArgsParser.is_op c = false) l ->
  ArgsParser.operator_and_value l = None.
Proof.
  unfold ArgsParser.operator_and_value.
  induction 1 as [|c l Hc _ IH]; [reflexivity|].
  cbn [ArgsParser.skip_space]. destruct (DecimalFloat.is_space c); [exact IH|].
  now rewrite Hc.
Qed.

Lemma no_operator_search (g l : list ascii) :
  Forall (fun c => ArgsParser.is_op c = false) l ->
  ArgsParser.search g l = None.
Proof.
  intros H. revert g. induction H as [|c l Hc Hl IH]; intros g.
  - reflexivity.
  - cbn [ArgsParser.search].
    rewrite (no_operator_no_match (c :: l)) by now constructor.
    destruct (ArgsParser.is_newline c); [reflexivity|apply IH].
Qed.

(** X18. A [--where] token with none of [<], [>], [=] in it is refused
    with the format error, the empty token included. *)
Theorem parse_where_no_operator (token : string) :
  Forall (fun c => ArgsParser.is_op c = false) (chars token) ->
  ArgsParser.parse_where token = inl ArgsParser.WhereFormat.
Proof.
  intros H. unfold ArgsParser.parse_where, ArgsParser.where_match.
  fold (chars token). destruct (chars token) as [|c l]; [reflexivity|].
  inversion H; subst.
  destruct (ArgsParser.is_newline c); [reflexivity|].
  now rewrite no_operator_search.
Qed.

Lemma split_first_eq_app (c f : string) :
  contains_eq c = false ->
  ArgsParser.split_first_eq (c ++ "=" ++ f) = (c, f).
Proof.
  induction c as [|ch c IH]; [reflexivity|].
  change (String ch c ++ "=" ++ f) with (String ch (c ++ "=" ++ f)).
  cbn [contains_eq ArgsParser.split_first_eq].
  destruct (Ascii.eqb ch "="); cbn [orb]; [discriminate|].
  intros H. now rewrite (IH H).
Qed.

Lemma split_first_eq_inv (s c f : string) :
  contains_eq s = true -> ArgsParser.split_first_eq s = (c, f) ->
  s = c ++ "=" ++ f /\ contains_eq c = false.
Proof.
  revert c. induction s as [|ch s IH]; intros c; [discriminate|].
  cbn [contains_eq ArgsParser.split_first_eq].
  destruct (Ascii.eqb ch "=") eqn:E; cbn [orb].
  - intros _ [= <- <-]. apply Ascii.eqb_eq in E. subst ch. auto.
  - intros H. destruct (ArgsParser.split_first_eq s) as [a b] eqn:Es.
    intros [= <- <-]. destruct (IH a H eq_refl) as [-> Ha].
    change (String ch a ++ "=" ++ b) with (String ch (a ++ "=" ++ b)).
    cbn [contains_eq]. rewrite E, Ha. auto.
Qed.

(** X19. The value of [--aggregate] is accepted exactly when it is one
    token with an [=] in it; the column is what stands before the first
    [=] and the function all that follows, further [=] included. *)
Theorem parse_aggregate_iff (tokens : list string) (column func : string) :
  ArgsParser.parse_aggregate tokens = inr (column, func) <->
  tokens = [column ++ "=" ++ func] /\ contains_eq column = false.
Proof.
  unfold ArgsParser.parse_aggregate. split.
  - destruct tokens as [|token [|t l]]; try discriminate.
    destruct (contains_eq token) eqn:E; [|discriminate].
    intros [= H]. destruct (split_first_eq_inv _ _ _ E H) as [-> ?]. auto.
  - intros [-> Hc]. rewrite contains_eq_app, Hc.
    replace (contains_eq ("=" ++ func)) with true by reflexivity.
    cbn [orb]. now rewrite split_first_eq_app.
Qed.

Lemma operator_and_value_op (l : list ascii) (op : ascii) (g : list ascii) :
  ArgsParser.operator_and_value l = Some (op, g) -> ArgsParser.is_op op = true.
Proof.
  unfold ArgsParser.operator_and_value.
  destruct (ArgsParser.skip_space l) as [|c l']; [discriminate|].
  destruct (ArgsParser.is_op c) eqn:E; [|discriminate].
  destruct (ArgsParser.value_group l'); [|discriminate].
  now intros [= <- _].
Qed.

Lemma search_op (g l g1 g3 : list ascii) (op : ascii) :
  ArgsParser.search g l = Some (g1, op, g3) -> ArgsParser.is_op op = true.
Proof.
  revert g. induction l as [|c l IH]; intros g; cbn [ArgsParser.search].
  - destruct (ArgsParser.operator_and_value []) as [[o g']|] eqn:E;
      [|discriminate].
    intros [= _ <- _]. eapply operator_and_value_op, E.
  - destruct (ArgsParser.operator_and_value (c :: l)) as [[o g']|] eqn:E.
    + intros [= _ <- _]. eapply operator_and_value_op, E.
    + destruct (ArgsParser.is_newline c); [discriminate|]. apply IH.
Qed.

Lemma parse_where_operator (token c o v : string) :
  ArgsParser.parse_where token = inr (c, o, v) ->
  o = "<" \/ o = ">" \/ o = "=".
Proof.
  unfold ArgsParser.parse_where, ArgsParser.where_match.
  destruct (list_ascii_of_string token) as [|c0 l]; [discriminate|].
  destruct (ArgsParser.is_newline c0); [discriminate|].
  destruct (ArgsParser.search [c0] l) as [[[g1 op] g3]|] eqn:E;
    [|discriminate].
  intros [= _ <- _]. eapply is_op_cases, search_op, E.
Qed.

Lemma parse_where_of_args (ns : ArgsParser.Namespace) (args : Args)
    (c o v : string) :
  ArgsParser.parse ns = inr args -> where_ args = Some (c, o, v) ->
  exists token, ArgsParser.parse_where token = inr (c, o, v).
Proof.
  unfold ArgsParser.parse.
  destruct (match ArgsParser.ns_aggregate ns with
            | None | Some [] => _ | Some (t :: l) => _ end) as [e|a];
    [discriminate|].
  destruct (ArgsParser.ns_where ns) as [[|token l]|].
  - intros [= <-]. discriminate.
  - destruct (ArgsParser.parse_where token) as [e|w] eqn:E; [discriminate|].
    intros [= <-]. cbn. intros [= ->]. now exists token.
  - intros [= <-]. discriminate.
Qed.

(** ** The exceptions of a run *)

Section Errors.
Context {parser : FloatParser}.
Implicit Types (r : gmap string cell) (rows : list (gmap string cell)).

Lemma match_Raise (f : RowFilter.t) r e :
  RowFilter.match_ f r = Raise e ->
  e = KeyError (RowFilter.column f) \/ e = TypeError FloatArgument \/
  (e = ValueError (UnknownOperator (RowFilter.op f)) /\
   RowFilter.op f <> ">" /\ RowFilter.op f <> "<" /\ RowFilter.op f <> "=").
Proof.
  destruct (r !! RowFilter.column f) as [[|s]|] eqn:E.
  - rewrite (proj2 (match_reads_cell_first_aux f r) E). intros [= <-]. auto.
  - rewrite (match_operands r f s E).
    destruct (float_of_str s), (float_of_str (RowFilter.value f));
      cbn [py_gt py_lt];
      destruct (String.eqb_spec (RowFilter.op f) ">"); try discriminate;
      destruct (String.eqb_spec (RowFilter.op f) "<"); try discriminate;
      destruct (String.eqb_spec (RowFilter.op f) "="); try discriminate;
      intros [= <-]; auto 6.
  - rewrite (proj1 (match_reads_cell_first_aux f r) E). intros [= <-]. auto.
Qed.

Lemma FilterCommand_Raise (f : RowFilter.t) rows e :
  FilterCommand_.execute f rows = Raise e ->
  exists r, In r rows /\ RowFilter.match_ f r = Raise e.
Proof.
  induction rows as [|r rows IH]; cbn [FilterCommand_.execute];
    [discriminate|].
  unfold mbind, result_bind.
  destruct (RowFilter.match_ f r) as [b|e'] eqn:E.
  - destruct (FilterCommand_.execute f rows) as [out|e'']; [discriminate|].
    intros [= <-]. destruct (IH eq_refl) as (r' & ? & ?).
    exists r'. split; [now right|assumption].
  - intros [= <-]. exists r. split; [now left|assumption].
Qed.

Lemma py_keys_Raise {X} (key : X -> result pyval) (l : list X) e :
  py_keys key l = Raise e -> exists a, In a l /\ key a = Raise e.
Proof.
  induction l as [|a l IH]; cbn [py_keys]; [discriminate|].
  unfold mbind, result_bind. destruct (key a) as [k|e'] eqn:E.
  - destruct (py_keys key l); [discriminate|]. intros [= <-].
    destruct (IH eq_refl) as (a' & ? & ?). exists a'.
    split; [now right|assumption].
  - intros [= <-]. exists a. split; [now left|assumption].
Qed.

Lemma OrderBy_Raise column reverse rows e :
  OrderByCommand_.execute column reverse rows = Raise e ->
  e = KeyError column \/ e = TypeError Unorderable.
Proof.
  unfold OrderByCommand_.execute, py_sorted, mbind, result_bind.
  destruct (py_keys _ rows) as [keyed|e'] eqn:Ek.
  - destruct (py_sort _) as [s|e''] eqn:Es; [discriminate|].
    intros [= <-]. right. eapply py_sort_Raise, Es.
  - intros [= <-]. left.
    destruct (py_keys_Raise _ _ _ Ek) as (r & _ & Hr).
    eapply key_func_Raise, Hr.
Qed.

(** The strategies never raise. *)
Lemma strategy_returns (s : IAggregationStrategy) (values : list float) :
  exists v, strategy_aggregate s values = Ok v.
Proof.
  destruct values as [|x vs]; [destruct s; cbn; eauto|].
  destruct s; cbn [strategy_aggregate]; eauto.
  destruct (py_sorted_floats (x :: vs)) as (data & E & _).
  unfold py_median. rewrite E. unfold mbind, result_bind.
  destruct (Nat.eqb _ _); eauto.
Qed.

Lemma values_Raise column rows e :
  DictAggregator.values column rows = Raise e ->
  e = KeyError column \/ exists s, e = ValueError (CouldNotConvert s).
Proof.
  induction rows as [|r rows IH]; cbn [DictAggregator.values];
    [discriminate|].
  unfold getitem. destruct (r !! column) as [c|].
  - unfold mbind, result_bind. cbv beta iota. fold (blank c).
    destruct (blank c) eqn:B; cbn [negb]; [exact IH|].
    destruct c as [|s]; [discriminate|]. cbn [py_float].
    unfold py_float_str. destruct (float_of_str s).
    + destruct (DictAggregator.values column rows); [discriminate|].
      intros [= <-]. now apply IH.
    + intros [= <-]. eauto.
  - intros [= <-]. auto.
Qed.

Lemma aggregate_Raise (self : DictAggregator.t) rows e :
  DictAggregator.aggregate self rows = Raise e ->
  e = KeyError (DictAggregator.column self) \/
  exists s, e = ValueError (CouldNotConvert s).
Proof.
  unfold DictAggregator.aggregate, mbind, result_bind.
  destruct (DictAggregator.values _ rows) as [[|x vs]|e'] eqn:E.
  - discriminate.
  - destruct (strategy_returns (DictAggregator.strategy self) (x :: vs))
      as [v ->]. discriminate.
  - intros [= <-]. eapply values_Raise, E.
Qed.
End Errors.

(** The commands [run] builds are the requested ones, in the fixed order
    filter, sort, aggregate. *)
Lemma commands_inv (args : Args) (cmds : list ICommand) :
  CsvApp.commands args = Ok cmds ->
  exists fs os gs,
    cmds = (fs ++ os ++ gs)%list /\
    (fs = [] \/
     exists c o v, where_ args = Some (c, o, v) /\
       fs = [FilterCommand (RowFilter.init c o v)]) /\
    (os = [] \/
     exists column direction,
       order_by args = Some (column ++ "=" ++ direction) /\
       os = [OrderByCommand column (String.eqb (lower direction) "desc")]) /\
    (gs = [] \/
     exists c f s, aggregate args = Some (c, f) /\
       AggregationStrategyFactory.get f = Ok s /\
       gs = [AggregateCommand (DictAggregator.init c s) c f]).
Proof.
  unfold CsvApp.commands. unfold mbind at 1. unfold result_bind.
  set (start := match where_ args with
                | Some (column, op, value) =>
                    ([] ++ [FilterCommand_.init column op value])%list
                | None => []
                end).
  assert (start = [] \/
          exists c o v, where_ args = Some (c, o, v) /\
            start = [FilterCommand (RowFilter.init c o v)]) as Hstart.
  { subst start. destruct (where_ args) as [[[c o] v]|]; [right|now left].
    exists c, o, v. split; reflexivity. }
  clearbody start.
  match goal with
  | |- match ?m with Ok _ => _ | Raise _ => _ end = _ -> _ =>
      assert (forall l, m = Ok l -> exists os, l = (start ++ os)%list /\
                (os = [] \/
                 exists column direction,
                   order_by args = Some (column ++ "=" ++ direction) /\
                   os = [OrderByCommand column
                           (String.eqb (lower direction) "desc")]))
        as Hmid;
      [|destruct m as [l|]; [specialize (Hmid l eq_refl)|discriminate]]
  end.
  { intros l. destruct (order_by args) as [[|ch s]|].
    - intros [= <-]. exists []. rewrite app_nil_r. auto.
    - destruct (contains_eq (String ch s)); cbn [negb]; [|discriminate].
      destruct (split_eq (String ch s)) as [|c [|d [|x l']]] eqn:Es;
        try discriminate.
      intros [= <-].
      destruct (split_eq_more _ _ _ _ Es) as (s' & E & Hc & Es').
      destruct (split_eq_one _ _ Es') as [-> Hd].
      eexists. split; [reflexivity|]. right. exists c, d. rewrite E. auto.
    - intros [= <-]. exists []. rewrite app_nil_r. auto. }
  destruct Hmid as (os & -> & Hos).
  destruct (aggregate args) as [[c f]|].
  - unfold AggregatorFactory.create, mbind, result_bind.
    destruct (AggregationStrategyFactory.get f) as [s|] eqn:Eg;
      [|discriminate].
    intros [= <-]. exists start, os, [AggregateCommand (DictAggregator.init c s) c f].
    rewrite <- app_assoc. split; [reflexivity|].
    split; [assumption|]. split; [assumption|]. right. exists c, f, s. auto.
  - intros [= <-]. exists start, os, []. rewrite app_nil_r. auto.
Qed.

Lemma commands_Raise (args : Args) (e : exn) :
  CsvApp.commands args = Raise e ->
  e = ValueError OrderByFormat \/
  (exists n, n <> 2 /\ e = ValueError (UnpackMismatch n)) \/
  (exists c f, aggregate args = Some (c, f) /\
     AggregationStrategyFactory.get f = Raise e /\
     e = ValueError (UnknownAggregation f)).
Proof.
  unfold CsvApp.commands. unfold mbind at 1. unfold result_bind.
  match goal with
  | |- match ?m with Ok _ => _ | Raise _ => _ end = _ -> _ =>
      destruct m as [l|e'] eqn:Em
  end.
  - destruct (aggregate args) as [[c f]|]; [|discriminate].
    unfold AggregatorFactory.create, mbind, result_bind.
    destruct (AggregationStrategyFactory.get f) as [s|e'] eqn:Eg;
      [discriminate|].
    intros [= <-]. right. right. exists c, f. split; [reflexivity|].
    split; [assumption|].
    revert Eg. unfold AggregationStrategyFactory.get.
    destruct (_ !! _); [discriminate|]. now intros [= <-].
  - intros [= <-]. revert Em.
    destruct (order_by args) as [[|ch s]|]; try discriminate.
    destruct (contains_eq (String ch s)); cbn [negb];
      [|intros [= <-]; now left].
    destruct (split_eq (String ch s)) as [|c [|d [|x l']]];
      try discriminate; intros [= <-]; right; left; eexists;
      (split; [|reflexivity]); cbn [length]; lia.
Qed.

Section RunErrors.
Context {parser : FloatParser}.
Implicit Types (rows : list (gmap string cell)).

Lemma execute_all_Raise (cmds : list ICommand) rows (e : exn) :
  outcome (CsvApp.execute_all cmds rows) = Raise e ->
  exists cmd rows', In cmd cmds /\ outcome (execute cmd rows') = Raise e.
Proof.
  revert rows. induction cmds as [|cmd cmds IH]; intros rows;
    cbn [CsvApp.execute_all]; [discriminate|].
  unfold mbind, io_bind.
  destruct (outcome (execute cmd rows)) as [mid|e'] eqn:E; cbn [outcome].
  - intros H. destruct (IH _ H) as (cmd' & rows' & ? & ?).
    exists cmd', rows'. split; [now right|assumption].
  - intros [= <-]. exists cmd, rows. split; [now left|assumption].
Qed.

Lemma run_Raise (args : Args) rows (e : exn) :
  outcome (CsvApp.run args rows) = Raise e ->
  CsvApp.commands args = Raise e \/
  exists cmds cmd rows',
    CsvApp.commands args = Ok cmds /\ In cmd cmds /\
    outcome (execute cmd rows') = Raise e.
Proof.
  unfold CsvApp.run, lift. unfold mbind at 1. unfold io_bind at 1.
  cbn [outcome trace].
  destruct (CsvApp.commands args) as [cmds|e'];
    [|cbn [outcome]; intros [= <-]; now left].
  cbn [outcome]. unfold mbind, io_bind.
  destruct (outcome (CsvApp.execute_all cmds rows)) as [final|e'] eqn:E;
    cbn [outcome].
  - destruct (aggregate args); discriminate.
  - intros [= <-]. right. destruct (execute_all_Raise _ _ _ E)
      as (cmd & rows' & ? & ?). eauto 6.
Qed.

Lemma run_Raise_stages (args : Args) rows (e : exn) :
  outcome (CsvApp.run args rows) = Raise e ->
  (e = ValueError OrderByFormat \/
   (exists n, n <> 2 /\ e = ValueError (UnpackMismatch n)) \/
   (exists c f, aggregate args = Some (c, f) /\
      AggregationStrategyFactory.get f = Raise e /\
      e = ValueError (UnknownAggregation f))) \/
  (exists c o v, where_ args = Some (c, o, v) /\
     (e = KeyError c \/ e = TypeError FloatArgument \/
      (e = ValueError (UnknownOperator o) /\
       o <> ">" /\ o <> "<" /\ o <> "="))) \/
  (exists column direction,
     order_by args = Some (column ++ "=" ++ direction) /\
     (e = KeyError column \/ e = TypeError Unorderable)) \/
  (exists c f, aggregate args = Some (c, f) /\
     (e = KeyError c \/ exists s, e = ValueError (CouldNotConvert s))).
Proof.
  intros H. destruct (run_Raise _ _ _ H) as [Hc|(cmds & cmd & rows' & Hc & Hin & He)].
  - left. destruct (commands_Raise _ _ Hc)
      as [-> | [(n & ? & ->) | (c & f & Ea & Eg & ->)]];
      [now left|right; left; eauto|].
    right. right. exists c, f. auto.
  - right. destruct (commands_inv _ _ Hc) as (fs & os & gs & -> & Hf & Ho & Hg).
    apply in_app_or in Hin. destruct Hin as [Hin|Hin];
      [|apply in_app_or in Hin; destruct Hin as [Hin|Hin]].
    + left. destruct Hf as [->|(c & o & v & Ew & ->)]; [destruct Hin|].
      destruct Hin as [<-|[]]. cbn in He.
      destruct (FilterCommand_Raise _ _ _ He) as (r & _ & Hr).
      exists c, o, v. split; [assumption|].
      exact (match_Raise _ _ _ Hr).
    + right. left. destruct Ho as [->|(column & direction & Eo & ->)];
        [destruct Hin|].
      destruct Hin as [<-|[]]. cbn in He.
      exists column, direction. split; [assumption|].
      eapply OrderBy_Raise, He.
    + right. right. destruct Hg as [->|(c & f & s & Ea & _ & ->)];
        [destruct Hin|].
      destruct Hin as [<-|[]]. cbn [execute] in He.
      unfold AggregateCommand_.execute, lift, emit in He.
      unfold mbind, io_bind in He. cbn [outcome trace] in He.
      destruct (DictAggregator.aggregate (DictAggregator.init c s) rows')
        as [v|e'] eqn:Eag; cbn [outcome] in He; [discriminate|].
      injection He as <-. exists c, f. split; [assumption|].
      exact (aggregate_Raise _ _ _ Eag).
Qed.
(** X16. Every exception of [run], by the stage that raises it: a refused
    [--order-by] value or an unknown aggregation while the commands are
    built; a missing column, a [None] cell or an unknown operator in the
    filter; a missing column or unorderable keys in the sort; a missing
    column or a cell [float] rejects in the aggregation. The column of a
    [KeyError] is the one the option of that stage names. *)
Theorem run_exceptions (args : Args) rows (e : exn) :
  outcome (CsvApp.run args rows) = Raise e ->
  (e = ValueError OrderByFormat \/
   (exists n, n <> 2 /\ e = ValueError (UnpackMismatch n)) \/
   (exists c f, aggregate args = Some (c, f) /\
      AggregationStrategyFactory.get f = Raise e /\
      e = ValueError (UnknownAggregation f))) \/
  (exists c o v, where_ args = Some (c, o, v) /\
     (e = KeyError c \/ e = TypeError FloatArgument \/
      (e = ValueError (UnknownOperator o) /\
       o <> ">" /\ o <> "<" /\ o <> "="))) \/
  (exists column direction,
     order_by args = Some (column ++ "=" ++ direction) /\
     (e = KeyError column \/ e = TypeError Unorderable)) \/
  (exists c f, aggregate args = Some (c, f) /\
     (e = KeyError c \/ exists s, e = ValueError (CouldNotConvert s))).
Proof. apply run_Raise_stages. Qed.

(** X20. The operator of a filter parsed from the command line is one of
    [<], [>] and [=], so a run on parsed arguments never raises the
    unknown-operator [ValueError] of [match]. *)
Theorem parsed_run_operator_known (ns : ArgsParser.Namespace) (args : Args)
    rows :
  ArgsParser.parse ns = inr args ->
  (forall c o v, where_ args = Some (c, o, v) ->
     o = "<" \/ o = ">" \/ o = "=") /\
  forall e o, outcome (CsvApp.run args rows) = Raise e ->
    e <> ValueError (UnknownOperator o).
Proof.
  intros Hp.
  assert (forall c o v, where_ args = Some (c, o, v) ->
            o = "<" \/ o = ">" \/ o = "=") as Hop.
  { intros c o v Hw. destruct (parse_where_of_args _ _ _ _ _ Hp Hw)
      as [token Ht]. eapply parse_where_operator, Ht. }
  split; [exact Hop|]. intros e o' He ->.
  destruct (run_Raise_stages _ _ _ He)
    as [[?|[(n & _ & ?)|(c & f & _ & _ & ?)]]
       |[(c & o & v & Hw & [?|[?|(E & H1 & H2 & H3)]])
        |[(c & d & _ & [?|?])|(c & f & _ & [?|(s & ?)])]]];
    try discriminate.
  destruct (Hop _ _ _ Hw) as [-> | [-> | ->]]; congruence.
Qed.

End RunErrors.


(** ** The order of the rows and the aggregations *)

Lemma float_leb_antisym (x y : float) :
  PrimFloat.leb x y = true -> PrimFloat.leb y x = true ->
  PrimFloat.eqb x y = true.
Proof.
  intros (a & b & Ha & Hb & L)%float_leb_iff
         (b' & a' & Hb' & Ha' & L')%float_leb_iff.
  simplify_eq. apply float_eqb_iff. exists a. split; [done|].
  destruct L as [->|L]; [done|]. destruct L' as [->|L']; [done|].
  exfalso. rank_lia.
Qed.

Section Order.
Context {parser : FloatParser}.
Implicit Types (r : gmap string cell) (rows : list (gmap string cell)).

Lemma values_Permutation column rows rows' :
  Permutation rows rows' ->
  forall vs, DictAggregator.values column rows = Ok vs ->
  exists vs', DictAggregator.values column rows' = Ok vs' /\
              Permutation vs vs'.
Proof.
  induction 1 as [|x l l' _ IH|x y l|l l' l'' _ IH1 _ IH2]; intros vs.
  - intros [= <-]. exists []. split; [reflexivity|constructor].
  - cbn [DictAggregator.values]. unfold getitem.
    destruct (x !! column) as [c|]; [|discriminate].
    unfold mbind, result_bind. cbv beta iota.
    destruct (negb _).
    + destruct (py_float c) as [v|]; [|discriminate].
      destruct (DictAggregator.values column l) as [vs0|]; [|discriminate].
      intros [= <-]. destruct (IH vs0 eq_refl) as (vs' & -> & P).
      exists (v :: vs'). split; [reflexivity|now constructor].
    + intros E. destruct (IH vs E) as (vs' & -> & P). eauto.
  - cbn [DictAggregator.values]. unfold getitem.
    destruct (x !! column) as [cx|], (y !! column) as [cy|];
      try discriminate; unfold mbind, result_bind; cbv beta iota.
    + destruct (negb (py_in (of_cell cy) _)), (negb (py_in (of_cell cx) _));
        destruct (py_float cx) as [vx|], (py_float cy) as [vy|];
        try discriminate;
        destruct (DictAggregator.values column l) as [vs0|];
        try discriminate; intros [= <-]; eexists;
        (split; [reflexivity|]);
        first [apply perm_swap | reflexivity].
    + destruct (negb (py_in (of_cell cy) _));
        [destruct (py_float cy)|]; discriminate.
  - intros E. destruct (IH1 vs E) as (vs1 & E1 & P1).
    destruct (IH2 vs1 E1) as (vs2 & E2 & P2).
    exists vs2. split; [assumption|]. now transitivity vs1.
Qed.

Lemma py_min_Permutation (x x' : float) (l l' : list float) :
  no_nan (x :: l) -> Permutation (x :: l) (x' :: l') ->
  PrimFloat.eqb (py_min x l) (py_min x' l') = true.
Proof.
  intros N P.
  assert (no_nan (x' :: l')) as N'.
  { unfold no_nan. now rewrite <- P. }
  destruct (py_min_least x l) as [I L], (py_min_least x' l') as [I' L'].
  specialize (L N). specialize (L' N').
  apply float_leb_antisym.
  - apply (proj1 (List.Forall_forall _ _) L). now rewrite P.
  - apply (proj1 (List.Forall_forall _ _) L'). now rewrite <- P.
Qed.

Lemma py_max_Permutation (x x' : float) (l l' : list float) :
  no_nan (x :: l) -> Permutation (x :: l) (x' :: l') ->
  PrimFloat.eqb (py_max x l) (py_max x' l') = true.
Proof.
  intros N P.
  assert (no_nan (x' :: l')) as N'.
  { unfold no_nan. now rewrite <- P. }
  destruct (py_max_greatest x l) as [I L], (py_max_greatest x' l') as [I' L'].
  specialize (L N). specialize (L' N').
  apply float_leb_antisym.
  - apply (proj1 (List.Forall_forall _ _) L' (py_max x l)). now rewrite <- P.
  - apply (proj1 (List.Forall_forall _ _) L (py_max x' l')). now rewrite P.
Qed.

(** X21. Sorting the rows first does not change the minimum or the
    maximum of a column: when no cell of the column reads as NaN, [min]
    and [max] over the rows [OrderByCommand] returned compare equal (as
    floats, so up to the sign of zero) to those over the rows it was
    given, and the one is [None] exactly when the other is. *)
Theorem min_max_after_sort (self : DictAggregator.t) column reverse
    rows sorted v :
  DictAggregator.strategy self = MinAggregation \/
  DictAggregator.strategy self = MaxAggregation ->
  Forall (fun r => forall x, parses_as (DictAggregator.column self) r x ->
                             PrimFloat.is_nan x = false) rows ->
  OrderByCommand_.execute column reverse rows = Ok sorted ->
  DictAggregator.aggregate self rows = Ok v ->
  exists v', DictAggregator.aggregate self sorted = Ok v' /\
    match v, v' with
    | Some a, Some b => PrimFloat.eqb a b = true
    | None, None => True
    | _, _ => False
    end.
Proof.
  intros Hs Hn Hsort. unfold OrderByCommand_.execute in Hsort.
  apply py_sorted_Permutation in Hsort.
  unfold DictAggregator.aggregate, mbind, result_bind.
  destruct (DictAggregator.values _ rows) as [vs|] eqn:E; [|discriminate].
  destruct (values_Permutation _ _ _ Hsort vs E) as (vs' & -> & P).
  assert (no_nan vs) as N.
  { apply List.Forall_forall. intros x Hx.
    destruct (values_from_rows _ _ _ E x Hx) as (r & Hr & Hp).
    exact (proj1 (List.Forall_forall _ _) Hn r Hr x Hp). }
  destruct vs as [|x l].
  - apply Permutation_nil in P. subst vs'. intros [= <-]. now exists None.
  - destruct vs' as [|x' l']; [now apply Permutation_sym, Permutation_nil in P|].
    destruct Hs as [Hs|Hs]; rewrite Hs; cbn [strategy_aggregate];
      intros [= <-]; eexists; (split; [reflexivity|]).
    + now apply py_min_Permutation.
    + now apply py_max_Permutation.
Qed.
End Order.

(** * The further properties on the table of the test suite *)

(** X5 at [price] against 150 on the row B/200: only [>] holds. *)
Lemma operators_partition_witness :
  exists g l e : bool,
    @RowFilter.match_ decimal_float (RowFilter.init "price" ">" "150")
      (product "B" "200") = Ok g /\
    @RowFilter.match_ decimal_float (RowFilter.init "price" "<" "150")
      (product "B" "200") = Ok l /\
    @RowFilter.match_ decimal_float (RowFilter.init "price" "=" "150")
      (product "B" "200") = Ok e /\
    g && l = false /\ g && e = false /\ l && e = false.
Proof.
  destruct (@operators_partition decimal_float (product "B" "200")
              "price" "150" "200")
    as (g & l & e & Hg & Hl & He & H1 & H2 & H3 & _).
  - vm_compute. reflexivity.
  - exists g, l, e. auto 10.
Defined.

(** X6: a price equals itself, the cell [nan] does not. *)
Lemma equality_on_same_text_witness :
  @RowFilter.match_ decimal_float (RowFilter.init "price" "=" "200")
    (product "B" "200") = Ok true /\
  @RowFilter.match_ decimal_float (RowFilter.init "price" "=" "nan")
    (product "B" "nan") = Ok false.
Proof.
  split.
  - refine (eq_trans (@equality_on_same_text decimal_float
              (product "B" "200") "price" "200" _) _);
      vm_compute; reflexivity.
  - refine (eq_trans (@equality_on_same_text decimal_float
              (product "B" "nan") "price" "nan" _) _);
      vm_compute; reflexivity.
Defined.

(** X7 on the table filtered by [price > 150]. *)
Lemma FilterCommand_idempotent_witness :
  @FilterCommand_.execute decimal_float (RowFilter.init "price" ">" "150")
    [product "B" "200"; product "C" "300"; product "A" "400"]
  = Ok [product "B" "200"; product "C" "300"; product "A" "400"].
Proof.
  apply (@FilterCommand_idempotent decimal_float
           (RowFilter.init "price" ">" "150") DATA).
  vm_compute. reflexivity.
Defined.

(** X8: a row without the column, after a row that has it. *)
Lemma FilterCommand_first_error_witness :
  @FilterCommand_.execute decimal_float (RowFilter.init "price" ">" "150")
    ([product "A" "100"] ++ no_price :: DATA)
  = Raise (KeyError "price").
Proof.
  apply (@FilterCommand_first_error decimal_float
           (RowFilter.init "price" ">" "150") [product "A" "100"] no_price
           DATA (KeyError "price")).
  - constructor; [exists false; vm_compute; reflexivity|constructor].
  - vm_compute. reflexivity.
Defined.

(** X9 on the table by descending price: 400 comes before 300. *)
Lemma OrderBy_output_ordered_witness :
  exists ka kb,
    @OrderByCommand_.key_func decimal_float "price" (product "A" "400")
    = Ok ka /\
    @OrderByCommand_.key_func decimal_float "price" (product "C" "300")
    = Ok kb /\
    py_lt ka kb = Ok false.
Proof.
  destruct (@OrderBy_output_ordered decimal_float "price" true DATA
              [product "A" "400"; product "C" "300"; product "B" "200";
               product "A" "100"]
              [] (product "A" "400") (product "C" "300")
              [product "B" "200"; product "A" "100"])
    as (ka & kb & Ha & Hb & Hlt & _).
  - vm_compute. reflexivity.
  - reflexivity.
  - exists ka, kb. auto.
Defined.

(** X10 on the table followed by a row without [price]. *)
Lemma OrderBy_missing_column_witness :
  @OrderByCommand_.execute decimal_float "price" false
    (product "A" "100" :: no_price :: DATA)
  = Raise (KeyError "price").
Proof.
  apply (@OrderBy_missing_column decimal_float).
  apply Exists_cons_tl, Exists_cons_hd. vm_compute. reflexivity.
Defined.

(** X12: the least price of the table is the cell of one of its rows. *)
Lemma aggregate_min_max_is_a_cell_witness :
  exists r, In r DATA /\ @parses_as decimal_float "price" r 100%float.
Proof.
  apply (@aggregate_min_max_is_a_cell decimal_float
           (DictAggregator.init "price" MinAggregation) DATA 100%float).
  - left. reflexivity.
  - vm_compute. reflexivity.
Defined.

(** X13: a row without [price] after a row that has a price. *)
Lemma aggregate_missing_column_witness :
  @DictAggregator.aggregate decimal_float
    (DictAggregator.init "price" AvgAggregation)
    ([product "A" "100"] ++ no_price :: DATA)
  = Raise (KeyError "price").
Proof.
  apply (@aggregate_missing_column decimal_float
           (DictAggregator.init "price" AvgAggregation)
           [product "A" "100"] no_price DATA).
  - constructor; [exists (CStr "100"); vm_compute; reflexivity|constructor].
  - intros H. apply Exists_cons in H. destruct H as [(s & E & _ & N)|H].
    + vm_compute in E. injection E as <-. vm_compute in N. discriminate.
    + inversion H.
  - vm_compute. reflexivity.
Defined.

(** X14: [price=DESC] sorts by descending price. *)
Lemma order_by_token_witness :
  CsvApp.commands {| file := "products.csv"; where_ := None;
                     order_by := Some "price=DESC"; aggregate := None |}
  = Ok [OrderByCommand "price" true].
Proof.
  apply (proj2 (order_by_token "products.csv" "price=DESC"
                  ltac:(discriminate) [OrderByCommand "price" true])).
  exists "price", "DESC". repeat split.
Defined.

(** X15 on the table: the average of the prices above 150 is 300. *)
Lemma run_filters_sorts_aggregates_witness :
  @CsvApp.run decimal_float full_args DATA
  = IO [PrintAggregate "avg" (Some 300%float)] (Ok tt).
Proof.
  refine (eq_trans (@run_filters_sorts_aggregates decimal_float full_args
            DATA "price" ">" "150" "brand" "DESC" "price" "avg"
            AvgAggregation _ _ _ _ _ _) _);
    vm_compute; reflexivity.
Defined.

(** X16 on the filter with the operator [!]: the exception is the filter's. *)
Lemma run_exceptions_witness :
  exists c o v, where_ malformed_args = Some (c, o, v) /\
    o <> ">" /\ o <> "<" /\ o <> "=".
Proof.
  destruct (@run_exceptions decimal_float malformed_args DATA
              (ValueError (UnknownOperator "!")))
    as [[E|[(n & _ & E)|(c & f & _ & _ & E)]]
       |[(c & o & v & Hw & [E|[E|(E & H)]])
        |[(c & d & _ & [E|E])|(c & f & _ & [E|(s & E)])]]];
    try discriminate E.
  - vm_compute. reflexivity.
  - exists c, o, v. auto.
Defined.


(** X18 on a token with a column alone. *)
Lemma parse_where_no_operator_witness :
  ArgsParser.parse_where "price" = inl ArgsParser.WhereFormat.
Proof.
  apply (parse_where_no_operator "price").
  vm_compute. repeat constructor.
Defined.

(** X20 on a command line whose filter reads [cost >= 1]: the operator is
    [>], the value [= 1], and the run fails on the missing column. *)
Lemma parsed_run_operator_known_witness :
  ArgsParser.parse cost_namespace = inr cost_args /\
  outcome (@CsvApp.run decimal_float cost_args DATA)
  = Raise (KeyError "cost") /\
  KeyError "cost" <> ValueError (UnknownOperator ">").
Proof.
  assert (ArgsParser.parse cost_namespace = inr cost_args) as Hp
    by (vm_compute; reflexivity).
  assert (outcome (@CsvApp.run decimal_float cost_args DATA)
          = Raise (KeyError "cost")) as Hr by (vm_compute; reflexivity).
  split; [exact Hp|]. split; [exact Hr|].
  exact (proj2 (@parsed_run_operator_known decimal_float cost_namespace
                  cost_args DATA Hp) _ ">" Hr).
Defined.

(** X21 on the table sorted by brand: the least price is still 100. *)
Lemma min_max_after_sort_witness :
  exists v',
    @DictAggregator.aggregate decimal_float
      (DictAggregator.init "price" MinAggregation) by_brand = Ok v' /\
    match v' with
    | Some b => PrimFloat.eqb 100 b = true
    | None => False
    end.
Proof.
  apply (@min_max_after_sort decimal_float
           (DictAggregator.init "price" MinAggregation) "brand" false DATA
           by_brand (Some 100%float)).
  - left. reflexivity.
  - unfold DATA.
    repeat (constructor;
      [intros x (s & E & Hx); vm_compute in E; injection E as <-;
       vm_compute in Hx; injection Hx as <-; reflexivity|]).
    constructor.
  - vm_compute. reflexivity.
  - vm_compute. reflexivity.
Defined.
